(** * Demucs stem separation service: request orchestration and packaging

    A shallow embedding of [app/services/demucs/main.py].  The handlers are
    translated into a state-and-exception monad over the process state (the
    module global [_separator], the file system, the logger and the record of
    calls into external libraries).  The external collaborators (torch,
    demucs, torchaudio, tempfile, pathlib, uuid) are not part of the service:
    their behaviour during one handler invocation is given by an environment
    record [Env].

    The handlers are [async def] but contain a single suspension point
    ([await file.read()]) that precedes every access to shared state, so each
    handler body is modelled as one sequential computation.  That suspension
    point is also the one place where the event loop can deliver a
    cancellation to a handler. *)

From stdpp Require Import gmap strings pretty list fin_maps.
From Stdlib Require Import ZArith Ascii.

Local Open Scope Z_scope.

(** ** Python strings

    A Python [str] is modelled by the string of its code points, restricted to
    code points below 256. *)

Definition dquote_char : ascii := ascii_of_nat 34.
Definition squote_char : ascii := ascii_of_nat 39.
Definition backslash_char : ascii := ascii_of_nat 92.

Definition nul_char : ascii := ascii_of_nat 0.

Definition str1 (c : ascii) : string := String c EmptyString.

Fixpoint str_mem (c : ascii) (s : string) : bool :=
  match s with
  | EmptyString => false
  | String d s' => if Ascii.eqb c d then true else str_mem c s'
  end.

Definition hex_digit (n : N) : ascii :=
  ascii_of_N (if (n <? 10)%N then 48 + n else 87 + n)%N.

Definition hex_escape (n : N) : string :=
  String backslash_char
    (String "x" (String (hex_digit (n / 16)) (str1 (hex_digit (n mod 16))))).

(** One character of [repr(str)], as CPython's [unicode_repr] writes it. *)
Definition repr_char (quote c : ascii) : string :=
  let n := N_of_ascii c in
  if Ascii.eqb c quote || Ascii.eqb c backslash_char then String backslash_char (str1 c)
  else if (n =? 9)%N then String backslash_char "t"
  else if (n =? 10)%N then String backslash_char "n"
  else if (n =? 13)%N then String backslash_char "r"
  else if (n <? 32)%N || (n =? 127)%N then hex_escape n
  else if (n <? 127)%N then str1 c
  else if (n <=? 160)%N || (n =? 173)%N then hex_escape n
  else str1 c.

Fixpoint repr_body (quote : ascii) (s : string) : string :=
  match s with
  | EmptyString => EmptyString
  | String c s' => repr_char quote c +:+ repr_body quote s'
  end.

(** [repr(s)]: double quotes are chosen only when the string holds a single
    quote and no double quote. *)
Definition py_repr_str (s : string) : string :=
  let quote :=
    if str_mem squote_char s && negb (str_mem dquote_char s)
    then dquote_char else squote_char in
  str1 quote +:+ repr_body quote s +:+ str1 quote.

Fixpoint join (sep : string) (l : list string) : string :=
  match l with
  | [] => EmptyString
  | [x] => x
  | x :: l' => x +:+ sep +:+ join sep l'
  end.

(** [repr] of a list of [str], as an f-string interpolates it. *)
Definition py_repr_list (l : list string) : string :=
  "[" +:+ join ", " (py_repr_str <$> l) +:+ "]".

(** Python truthiness of an [Optional[str]]: [None] and the empty string are
    falsy. *)
Definition truthy (o : option string) : bool :=
  match o with
  | Some (String _ _) => true
  | _ => false
  end.

(** [needle in hay] on strings. *)
Fixpoint str_contains (needle hay : string) : bool :=
  String.prefix needle hay ||
  match hay with
  | EmptyString => false
  | String _ hay' => str_contains needle hay'
  end.

Abbreviation bytes := (list Byte.byte).

(** ** Exceptions, log records, external calls *)

(** An exception raised by an external library; [exn_str] is [str(e)]. *)
Record PyExn := mkExn { exn_str : string }.

(** What a handler can see raised: FastAPI's [HTTPException], any other
    subclass of [Exception], and [asyncio.CancelledError], which derives
    from [BaseException] and so is matched by no [except Exception]. *)
Inductive Raised :=
| HTTPException (status_code : Z) (detail : string)
| Exception (e : PyExn)
| CancelledError.

(** [str(e)] as the [except Exception as e] handlers interpolate it.  For an
    [HTTPException] this is Starlette's [__str__]. *)
Definition py_str (r : Raised) : string :=
  match r with
  | HTTPException c d => pretty c +:+ ": " +:+ d
  | Exception e => exn_str e
  | CancelledError => EmptyString
  end.

Inductive LogLevel := INFO | WARNING | ERROR.

Record LogRecord := mkLog {
  levelname : LogLevel;
  message : string;
  exc_info : option Raised
}.

(** Calls that leave the service, in the order they happen (newest first). *)
Inductive Call :=
| CallSeparator (model device : string) (ok : bool)
| CallSeparateFile (path : string)
| CallSave (format : string)
| CallTempFile (path : string)
| CallUnlink (path : string).

(** ** Data model *)

(** The engine handle [demucs.api.Separator]: the constructor keeps the model
    name and the device it was given; the sample rate comes with the model. *)
Record Separator := mkSeparator {
  sep_model : string;
  sep_device : string;
  samplerate : Z
}.

Record StemInfo := mkStemInfo {
  name : string;
  size_bytes : nat
}.

Inductive Body :=
| BytesIO (data : bytes)
| ZipFile (entries : list (string * bytes)).

Inductive Response :=
| StreamingResponse (body : Body) (media_type : string)
    (headers : list (string * string))
| SeparationResult (track_id : string) (stems : list StemInfo)
    (model device : string)
| HealthReport (status device : string) (cuda_available model_loaded : bool).

(** How [await file.read()] can end without a value: the read raises, or
    the request is cancelled while the handler is suspended there. *)
Inductive Interrupted :=
| Raises (e : PyExn)
| Cancelled.

Record UploadFile := mkUpload {
  filename : option string;
  read : Interrupted + bytes
}.

(** Process state: the module global, the scratch files ([fs] holds the
    files the handlers themselves create and remove; what the libraries keep
    on disk, such as downloaded checkpoints, is not part of it), the logger
    output and the external calls made so far. *)
Record State := mkState {
  _separator : option Separator;
  fs : gmap string bytes;
  logs : list LogRecord;
  calls : list Call
}.

Definition init_state : State :=
  {| _separator := None; fs := ∅; logs := []; calls := [] |}.

(** ** The handler monad *)

Definition M (A : Type) : Type := State → (Raised + A) * State.

Definition ret {A} (a : A) : M A := λ st, (inr a, st).
Definition raise {A} (r : Raised) : M A := λ st, (inl r, st).

Definition bind {A B} (m : M A) (k : A → M B) : M B := λ st,
  match m st with
  | (inl r, st') => (inl r, st')
  | (inr a, st') => k a st'
  end.

Notation "'do' x <- m ; k" := (bind m (λ x, k))
  (at level 10, x name, m at level 100, k at level 200).
Notation "'do' ' p <- m ; k" := (bind m (λ x, match x with p => k end))
  (at level 10, p pattern, m at level 100, k at level 200).
Notation "m ;; k" := (bind m (λ _, k))
  (at level 100, k at level 200, right associativity).

(** [try: body finally: fin] -- the [finally] block runs on every exit of
    [body]; an exception raised by [fin] replaces the outcome of [body]. *)
Definition try_finally {A} (body : M A) (fin : M unit) : M A := λ st,
  match body st with
  | (r, st1) =>
      match fin st1 with
      | (inl e, st2) => (inl e, st2)
      | (inr _, st2) => (r, st2)
      end
  end.

(** [try: body except ... : handler] *)
Definition try_except {A} (body : M A) (handler : Raised → M A) : M A := λ st,
  match body st with
  | (inl r, st1) => handler r st1
  | (inr a, st1) => (inr a, st1)
  end.

Definition lift_exn {A} (x : PyExn + A) : M A :=
  match x with
  | inl e => raise (Exception e)
  | inr a => ret a
  end.

Definition push_log (r : LogRecord) (st : State) : State :=
  {| _separator := _separator st; fs := fs st;
     logs := r :: logs st; calls := calls st |}.

Definition push_call (c : Call) (st : State) : State :=
  {| _separator := _separator st; fs := fs st;
     logs := logs st; calls := c :: calls st |}.

Definition with_separator (s : Separator) (st : State) : State :=
  {| _separator := Some s; fs := fs st;
     logs := logs st; calls := calls st |}.

Definition with_fs (f : gmap string bytes) (st : State) : State :=
  {| _separator := _separator st; fs := f;
     logs := logs st; calls := calls st |}.

(** [await file.read()] *)
Definition await_read (file : UploadFile) : M bytes :=
  match read file with
  | inl (Raises e) => raise (Exception e)
  | inl Cancelled => raise CancelledError
  | inr content => ret content
  end.

Definition logger (lvl : LogLevel) (msg : string) (exc : option Raised) : M unit :=
  λ st, (inr tt, push_log (mkLog lvl msg exc) st).

Definition logger_info (msg : string) : M unit := logger INFO msg None.

Definition record_call (c : Call) : M unit := λ st, (inr tt, push_call c st).

Definition set_separator (s : Separator) : M unit :=
  λ st, (inr tt, with_separator s st).

Definition set_fs (f : gmap string bytes) : M unit :=
  λ st, (inr tt, with_fs f st).

(** ** External collaborators *)

Section Service.

(** Raw audio as the engine hands it out; the service never looks inside. *)
Variable Tensor : Type.

(** What the libraries do during one handler invocation. *)
Record Env := mkEnv {
  (** [torch.cuda.is_available()] *)
  cuda_is_available : bool;
  (** [demucs.api.Separator(model=, device=)]: raises, or loads a model with
      the given sample rate *)
  load_model : string → string → PyExn + Z;
  (** [separator.separate_audio_file(path)] on a file with the given
      content: raises, or yields [(origin, separated)]; the dict [separated]
      is listed in iteration order *)
  run_separation : Separator → string → bytes →
                   PyExn + (Tensor * list (string * Tensor));
  (** what [separator.separate_audio_file(path)] raises when there is no
      file at [path] *)
  missing_audio : Separator → string → PyExn;
  (** [torchaudio.save(buffer, tensor, samplerate, format=)] into a fresh
      [io.BytesIO]: raises, or writes these bytes and leaves the position at
      their end *)
  torchaudio_save : Tensor → Z → string → PyExn + bytes;
  (** [str(uuid.uuid4())] *)
  uuid4 : string;
  (** [Path(name).suffix] *)
  path_suffix : string → string;
  (** [tempfile.NamedTemporaryFile(suffix=, delete=False)]: raises, or
      creates an empty file and yields its name *)
  mkstemp : string → PyExn + string;
  (** [tmp.write(content)] and the close at the end of the [with] block:
      [Some e] when they raise; the file stays (the model leaves it empty) *)
  tmp_write : string → bytes → option PyExn
}.

Variable env : Env.

(** [Separator(model=model, device=device)] *)
Definition Separator_new (model device : string) : M Separator :=
  match load_model env model device with
  | inl e => record_call (CallSeparator model device false);; raise (Exception e)
  | inr sr => record_call (CallSeparator model device true);;
              ret (mkSeparator model device sr)
  end.

(** [separator.separate_audio_file(path)] *)
Definition separate_audio_file (separator : Separator) (path : string)
  : M (Tensor * list (string * Tensor)) :=
  record_call (CallSeparateFile path);;
  λ st, match fs st !! path with
        | None => raise (Exception (missing_audio env separator path)) st
        | Some content => lift_exn (run_separation env separator path content) st
        end.

(** [buffer = io.BytesIO(); torchaudio.save(buffer, tensor, sr, format=fmt)];
    the result is the content of [buffer]. *)
Definition save (tensor : Tensor) (sr : Z) (fmt : string) : M bytes :=
  record_call (CallSave fmt);;
  lift_exn (torchaudio_save env tensor sr fmt).

(** [with tempfile.NamedTemporaryFile(suffix=suffix, delete=False) as tmp:
       tmp.write(content); tmp_path = tmp.name] *)
Definition write_temp (suffix : string) (content : bytes) : M string :=
  do tmp_name <- lift_exn (mkstemp env suffix);
  record_call (CallTempFile tmp_name);;
  (λ st, set_fs (<[tmp_name := []]> (fs st)) st);;
  match tmp_write env tmp_name content with
  | Some e => raise (Exception e)
  | None =>
      (λ st, set_fs (<[tmp_name := content]> (fs st)) st);;
      ret tmp_name
  end.

(** [str(e)] of the [FileNotFoundError] that [os.unlink(path)] raises *)
Definition no_such_file (path : string) : PyExn :=
  mkExn ("[Errno 2] No such file or directory: " +:+ py_repr_str path).

(** [os.unlink(path)] *)
Definition os_unlink (path : string) : M unit :=
  record_call (CallUnlink path);;
  λ st, match fs st !! path with
        | None => raise (Exception (no_such_file path)) st
        | Some _ => set_fs (delete path (fs st)) st
        end.

(** [separated[key]] on the dict of stems; [None] when [key not in
    separated] *)
Fixpoint dict_get (separated : list (string * Tensor)) (key : string)
  : option Tensor :=
  match separated with
  | [] => None
  | (k, v) :: rest => if String.eqb k key then Some v else dict_get rest key
  end.

Definition current_device : string :=
  if cuda_is_available env then "cuda" else "cpu".

(** ** The service *)

(** [get_separator]: get or create the Demucs separator. *)
Definition get_separator (model : string) : M Separator := λ st,
  match _separator st with
  | None =>
      (logger_info ("Loading Demucs model: " +:+ model);;
       let device := if cuda_is_available env then "cuda" else "cpu" in
       logger_info ("Using device: " +:+ device);;
       do s <- Separator_new model device;
       set_separator s;;
       logger_info "Model loaded successfully";;
       ret s) st
  | Some s => ret s st
  end.

(** [startup_event]: pre-load the default model; a failure is only logged. *)
Definition startup_event : M unit :=
  try_except
    (get_separator "htdemucs";; ret tt)
    (λ e, match e with
          | CancelledError => raise e
          | _ => logger WARNING ("Failed to pre-load model: " +:+ py_str e) None
          end).

(** [health_check] *)
Definition health_check : M Response := λ st,
  let device := if cuda_is_available env then "cuda" else "cpu" in
  ret (HealthReport "healthy" device (cuda_is_available env)
         (match _separator st with Some _ => true | None => false end)) st.

(** The loop of [separate_audio] that encodes every stem only to measure it:
    [stems_info.append(StemInfo(name=name, size_bytes=buffer.tell()))]. *)
Fixpoint measure_stems (items : list (string * Tensor)) (sr : Z)
    (stems_info : list StemInfo) : M (list StemInfo) :=
  match items with
  | [] => ret stems_info
  | (name, tensor) :: rest =>
      do buffer <- save tensor sr "wav";
      measure_stems rest sr (stems_info ++ [mkStemInfo name (length buffer)])
  end.

(** The name under which [zipfile] files an entry: [ZipInfo] ends the given
    name at its first null character. *)
Fixpoint zipinfo_filename (s : string) : string :=
  match s with
  | EmptyString => EmptyString
  | String c s' =>
      if Ascii.eqb nul_char c then EmptyString
      else String c (zipinfo_filename s')
  end.

(** The loop of [separate_all_stems] that fills the archive:
    [zf.writestr(f"{name}.wav", stem_buffer.read())]. *)
Fixpoint zip_stems (items : list (string * Tensor)) (sr : Z) (format : string)
    (zf : list (string * bytes)) : M (list (string * bytes)) :=
  match items with
  | [] => ret zf
  | (name, tensor) :: rest =>
      do stem_buffer <-
        (if String.eqb format "mp3"
         then save tensor sr "wav"
         else save tensor sr "wav");
      zip_stems rest sr format
        (zf ++ [(zipinfo_filename (name +:+ ".wav"), stem_buffer)])
  end.

Definition attachment (file_name : string) : string :=
  "attachment; filename=" +:+ str1 dquote_char +:+ file_name
    +:+ str1 dquote_char.

(** The block of [separate_audio] that the inner [try ... finally] guards.
    Starlette encodes the header values as latin-1 when the
    [StreamingResponse] is constructed; every string of this model lies
    within latin-1 (code points below 256), so the construction does not
    raise here.  A stem name with a code point above 255 is outside the
    model. *)
Definition separate_audio_try (model : string) (stem : option string)
    (track_id tmp_path : string) : M Response :=
  do separator <- get_separator model;
  logger_info ("Separating stems for track " +:+ track_id);;
  do '(origin, separated) <- separate_audio_file separator tmp_path;
  let stem_names := separated.*1 in
  logger_info ("Separated into stems: " +:+ py_repr_list stem_names);;
  if truthy stem then
    let stem := default EmptyString stem in
    match dict_get separated stem with
    | None =>
        raise (HTTPException 400
                 ("Stem '" +:+ stem +:+ "' not found. Available: "
                  +:+ py_repr_list stem_names))
    | Some stem_tensor =>
        do buffer <- save stem_tensor (samplerate separator) "wav";
        ret (StreamingResponse (BytesIO buffer) "audio/wav"
               [("Content-Disposition", attachment (stem +:+ ".wav"));
                ("X-Track-Id", track_id);
                ("X-Stem-Name", stem)])
    end
  else
    do stems_info <- measure_stems separated (samplerate separator) [];
    ret (SeparationResult track_id stems_info model
           (if cuda_is_available env then "cuda" else "cpu")).

(** The [except] clauses of [separate_audio]: an [HTTPException] is raised
    again, any other [Exception] is logged and becomes a 500; what is no
    [Exception] passes both clauses. *)
Definition separate_audio_except (e : Raised) : M Response :=
  match e with
  | HTTPException _ _ => raise e
  | Exception _ =>
      logger ERROR ("Separation failed: " +:+ py_str e) (Some e);;
      raise (HTTPException 500 ("Separation failed: " +:+ py_str e))
  | CancelledError => raise e
  end.

(** [separate_audio]: [POST /separate] *)
Definition separate_audio (file : UploadFile) (model : string)
    (stem : option string) : M Response :=
  if negb (truthy (filename file))
  then raise (HTTPException 400 "No filename provided")
  else
    let file_name := default EmptyString (filename file) in
    let track_id := uuid4 env in
    try_except
      (do content <- await_read file;
       logger_info ("Processing file: " +:+ file_name +:+ " ("
                    +:+ pretty (length content) +:+ " bytes)");;
       do tmp_path <- write_temp (path_suffix env file_name) content;
       try_finally
         (separate_audio_try model stem track_id tmp_path)
         (os_unlink tmp_path))
      separate_audio_except.

(** The block of [separate_all_stems] that the inner [try ... finally]
    guards. *)
Definition separate_all_stems_try (model format track_id tmp_path : string)
  : M Response :=
  do separator <- get_separator model;
  do '(origin, separated) <- separate_audio_file separator tmp_path;
  do zf <- zip_stems separated (samplerate separator) format [];
  ret (StreamingResponse (ZipFile zf) "application/zip"
         [("Content-Disposition",
           attachment ("stems_" +:+ track_id +:+ ".zip"));
          ("X-Track-Id", track_id)]).

(** The single [except Exception] clause of [separate_all_stems]; what is
    no [Exception] passes it. *)
Definition separate_all_stems_except (e : Raised) : M Response :=
  match e with
  | CancelledError => raise e
  | _ =>
      logger ERROR ("Separation failed: " +:+ py_str e) (Some e);;
      raise (HTTPException 500 ("Separation failed: " +:+ py_str e))
  end.

(** [separate_all_stems]: [POST /separate/all] *)
Definition separate_all_stems (file : UploadFile) (model format : string)
  : M Response :=
  if negb (truthy (filename file))
  then raise (HTTPException 400 "No filename provided")
  else
    let file_name := default EmptyString (filename file) in
    let track_id := uuid4 env in
    try_except
      (do content <- await_read file;
       logger_info ("Processing file for all stems: " +:+ file_name);;
       do tmp_path <- write_temp (path_suffix env file_name) content;
       try_finally
         (separate_all_stems_try model format track_id tmp_path)
         (os_unlink tmp_path))
      separate_all_stems_except.

(** [get_single_stem]: [POST /separate/stem/{stem_name}] *)
Definition get_single_stem (stem_name : string) (file : UploadFile)
    (model : string) : M Response :=
  separate_audio file model (Some stem_name).

End Service.

Arguments mkEnv {Tensor}.
Arguments cuda_is_available {Tensor}.
Arguments load_model {Tensor}.
Arguments run_separation {Tensor}.
Arguments missing_audio {Tensor}.
Arguments torchaudio_save {Tensor}.
Arguments uuid4 {Tensor}.
Arguments path_suffix {Tensor}.
Arguments mkstemp {Tensor}.
Arguments tmp_write {Tensor}.
Arguments Separator_new {Tensor}.
Arguments separate_audio_file {Tensor}.
Arguments save {Tensor}.
Arguments write_temp {Tensor}.
Arguments dict_get {Tensor}.
Arguments current_device {Tensor}.
Arguments get_separator {Tensor}.
Arguments startup_event {Tensor}.
Arguments health_check {Tensor}.
Arguments measure_stems {Tensor}.
Arguments zip_stems {Tensor}.
Arguments separate_audio_try {Tensor}.
Arguments separate_all_stems_try {Tensor}.
Arguments separate_audio {Tensor}.
Arguments separate_all_stems {Tensor}.
Arguments get_single_stem {Tensor}.

(** ** The running process

    One inbound event with the behaviour of the libraries while it is
    served. *)
Inductive Event (Tensor : Type) :=
| Startup
| GetHealth
| PostSeparate (file : UploadFile) (model : string) (stem : option string)
| PostSeparateAll (file : UploadFile) (model format : string)
| PostSeparateStem (stem_name : string) (file : UploadFile) (model : string).

Arguments Startup {Tensor}.
Arguments GetHealth {Tensor}.
Arguments PostSeparate {Tensor}.
Arguments PostSeparateAll {Tensor}.
Arguments PostSeparateStem {Tensor}.

Definition serve {Tensor} (env : Env Tensor) (ev : Event Tensor)
  : M (option Response) :=
  match ev with
  | Startup => startup_event env;; ret None
  | GetHealth => do r <- health_check env; ret (Some r)
  | PostSeparate file model stem =>
      do r <- separate_audio env file model stem; ret (Some r)
  | PostSeparateAll file model format =>
      do r <- separate_all_stems env file model format; ret (Some r)
  | PostSeparateStem stem_name file model =>
      do r <- get_single_stem env stem_name file model; ret (Some r)
  end.

(** The state after a history of events, oldest first. *)
Fixpoint run {Tensor} (history : list (Env Tensor * Event Tensor)) (st : State)
  : State :=
  match history with
  | [] => st
  | (env, ev) :: rest => run rest (serve env ev st).2
  end.

(** ** Sample inputs *)

Definition demo_stems : list (string * nat) :=
  [("vocals", 1%nat); ("drums", 2%nat); ("bass", 3%nat); ("other", 4%nat)].

(** A CPU-only host on which every library call succeeds; the "tensor" [n]
    encodes to [40 + n] bytes. *)
Definition demo_env : Env nat :=
  {| cuda_is_available := false;
     load_model := λ _ _, inr 44100;
     run_separation := λ _ _ _, inr (0%nat, demo_stems);
     missing_audio := λ _ path, mkExn ("Could not load file " +:+ path);
     torchaudio_save := λ t _ _, inr (replicate (40 + t) Byte.x00);
     uuid4 := "1b4e28ba-2fa1-11d2-883f-0016d3cca427";
     path_suffix := λ _, ".mp3";
     mkstemp := λ suffix, inr ("/tmp/tmpk3x9_a7q" +:+ suffix);
     tmp_write := λ _ _, None |}.

(** The same host when loading a model fails. *)
Definition broken_env : Env nat :=
  {| cuda_is_available := false;
     load_model := λ _ _, inl (mkExn "checkpoint not found");
     run_separation := run_separation demo_env;
     missing_audio := missing_audio demo_env;
     torchaudio_save := torchaudio_save demo_env;
     uuid4 := uuid4 demo_env;
     path_suffix := path_suffix demo_env;
     mkstemp := mkstemp demo_env;
     tmp_write := tmp_write demo_env |}.

(** The same host when only [htdemucs] can be loaded. *)
Definition picky_env : Env nat :=
  {| cuda_is_available := false;
     load_model := λ model _,
       if String.eqb model "htdemucs" then inr 44100
       else inl (mkExn (model +:+ " is not a pre-trained model"));
     run_separation := run_separation demo_env;
     missing_audio := missing_audio demo_env;
     torchaudio_save := torchaudio_save demo_env;
     uuid4 := uuid4 demo_env;
     path_suffix := path_suffix demo_env;
     mkstemp := mkstemp demo_env;
     tmp_write := tmp_write demo_env |}.

(** The same host when the engine fails on the input. *)
Definition oom_env : Env nat :=
  {| cuda_is_available := false;
     load_model := load_model demo_env;
     run_separation := λ _ _ _, inl (mkExn "CUDA out of memory");
     missing_audio := missing_audio demo_env;
     torchaudio_save := torchaudio_save demo_env;
     uuid4 := uuid4 demo_env;
     path_suffix := path_suffix demo_env;
     mkstemp := mkstemp demo_env;
     tmp_write := tmp_write demo_env |}.

(** The same host when the disk is full. *)
Definition full_disk_env : Env nat :=
  {| cuda_is_available := false;
     load_model := load_model demo_env;
     run_separation := run_separation demo_env;
     missing_audio := missing_audio demo_env;
     torchaudio_save := torchaudio_save demo_env;
     uuid4 := uuid4 demo_env;
     path_suffix := path_suffix demo_env;
     mkstemp := mkstemp demo_env;
     tmp_write := λ _ _, Some (mkExn "[Errno 28] No space left on device") |}.

(** The same host when the encoder fails on the third stem. *)
Definition flaky_env : Env nat :=
  {| cuda_is_available := false;
     load_model := load_model demo_env;
     run_separation := run_separation demo_env;
     missing_audio := missing_audio demo_env;
     torchaudio_save := λ t _ _,
       if Nat.eqb t 3 then inl (mkExn "encoder error")
       else inr (replicate (40 + t) Byte.x00);
     uuid4 := uuid4 demo_env;
     path_suffix := path_suffix demo_env;
     mkstemp := mkstemp demo_env;
     tmp_write := tmp_write demo_env |}.

(** The same host when no temporary file can be created. *)
Definition no_tmp_env : Env nat :=
  {| cuda_is_available := false;
     load_model := load_model demo_env;
     run_separation := run_separation demo_env;
     missing_audio := missing_audio demo_env;
     torchaudio_save := torchaudio_save demo_env;
     uuid4 := uuid4 demo_env;
     path_suffix := path_suffix demo_env;
     mkstemp := λ _, inl (mkExn "[Errno 13] Permission denied");
     tmp_write := tmp_write demo_env |}.

Definition demo_file : UploadFile :=
  {| filename := Some "song.mp3"; read := inr [Byte.x01; Byte.x02] |}.

(** An upload whose request is cancelled while it is being read. *)
Definition cancelled_file : UploadFile :=
  {| filename := Some "song.mp3"; read := inl Cancelled |}.

Definition unnamed_file : UploadFile :=
  {| filename := Some EmptyString; read := inr [Byte.x01; Byte.x02] |}.

Definition htdemucs_handle : Separator := mkSeparator "htdemucs" "cpu" 44100.

(** A process that has already loaded [htdemucs]. *)
Definition warm_state : State :=
  {| _separator := Some htdemucs_handle; fs := ∅; logs := []; calls := [] |}.

(** ** Reasoning about handlers *)

(** [wp m Q st]: running [m] from [st] ends in an outcome and a state that
    satisfy [Q]. *)
Definition wp {A} (m : M A) (Q : Raised + A → State → Prop) (st : State) : Prop :=
  Q (m st).1 (m st).2.

(** [preserves P m]: [m] keeps [P] on every exit. *)
Definition preserves {A} (P : State → Prop) (m : M A) : Prop :=
  ∀ st, P st → P (m st).2.

Definition is_constructor_call (c : Call) : bool :=
  match c with CallSeparator _ _ _ => true | _ => false end.

Definition is_save_call (c : Call) : bool :=
  match c with CallSave _ => true | _ => false end.

(** The cache holds a handle that was built for [model]. *)
Definition holds_handle_for (st : State) (model : string) : Prop :=
  ∃ s, _separator st = Some s ∧ sep_model s = model.

(** Some constructor call of the history returned a handle. *)
Definition loaded_once (cs : list Call) : Prop :=
  ∃ model device, CallSeparator model device true ∈ cs.

(** The contract of a cache keyed by model identifier, at one call: when the
    cache holds no handle built for [model] and the constructor would
    succeed, the call constructs and records a handle for [model]. *)
Definition loads_per_identifier {T} (env : Env T) (model : string)
    (st : State) : Prop :=
  ¬ holds_handle_for st model →
  ∀ sr, load_model env model (current_device env) = inr sr →
  let r := get_separator env model st in
  r.1 = inr (mkSeparator model (current_device env) sr) ∧
  holds_handle_for r.2 model.

(** [model_loaded] of the health report tells whether some load succeeded. *)
Definition cache_reflects_loads (st : State) : Prop :=
  is_Some (_separator st) ↔ loaded_once (calls st).

(** The reading of "a generic message" for one failed request: the
    response is a 500 whose detail does not show the text of the cause. *)
Definition hides_cause (r : Raised + Response) (cause : PyExn) : Prop :=
  ∃ detail, r = inl (HTTPException 500 detail) ∧
            str_contains (exn_str cause) detail = false.

(** Every stem of [separated] encodes to WAV, stem by stem into [datas]. *)
Definition encodes_to {T} (env : Env T) (sr : Z)
    (separated : list (string * T)) (datas : list bytes) : Prop :=
  Forall2 (λ item data, torchaudio_save env item.2 sr "wav" = inr data)
    separated datas.

(** The state after [n] calls of [torchaudio.save(..., format="wav")]. *)
Definition saved (n : nat) (st : State) : State :=
  Nat.iter n (push_call (CallSave "wav")) st.

(** The state in which the guarded block of a request starts: the request
    was logged, the scratch file was created and holds the upload. *)
Definition scratch_written (msg path : string) (content : bytes) (st : State)
  : State :=
  with_fs (<[path := content]> (fs st))
    (push_call (CallTempFile path) (push_log (mkLog INFO msg None) st)).

(** The state in which a request ends once [finally] has removed [path]. *)
Definition scratch_removed (path : string) (st : State) : State :=
  with_fs (delete path (fs st)) (push_call (CallUnlink path) st).

Definition is_engine_call (c : Call) : bool :=
  match c with CallSeparateFile _ => true | _ => false end.

Definition is_loaded_call (c : Call) : bool :=
  match c with CallSeparator _ _ true => true | _ => false end.

(** The successful constructor calls of a process are none while the slot
    is empty, and exactly the one that built the handle in the slot
    otherwise. *)
Definition loaded_at_most_once (st : State) : Prop :=
  filter is_loaded_call (calls st) =
  match _separator st with
  | None => []
  | Some s => [CallSeparator (sep_model s) (sep_device s) true]
  end.

(** The error detail both handlers give to an exception they catch. *)
Definition failed (e : PyExn) : Raised :=
  HTTPException 500 ("Separation failed: " +:+ exn_str e).


(** What the part of a handler inside its outer [try] may end in, before
    the [except] clauses: an exception of a library, a 400 whose detail
    satisfies [bad], a [CancelledError] when [cancelled] holds, or a
    response accepted by [ok]. *)
Definition block_outcome (cancelled : Prop) (bad : string → Prop)
    (ok : Response → Prop) (r : Raised + Response) : Prop :=
  match r with
  | inl (HTTPException code detail) => code = 400 ∧ bad detail
  | inl (Exception _) => True
  | inl CancelledError => cancelled
  | inr resp => ok resp
  end.

(** [m] ends, from every state, in an outcome that satisfies [R]. *)
Definition always {A} (R : Raised + A → Prop) (m : M A) : Prop :=
  ∀ st, R (m st).1.

(** [m] raises nothing but exceptions of external libraries. *)
Definition raises_exn {A} (m : M A) : Prop :=
  ∀ st r, (m st).1 = inl r → ∃ e, r = Exception e.

Definition is_stream (media : string) (resp : Response) : Prop :=
  ∃ body headers, resp = StreamingResponse body media headers.

Definition is_metadata (resp : Response) : Prop :=
  ∃ track_id stems model device,
    resp = SeparationResult track_id stems model device.

(** A response with its [model] field replaced; only the metadata record
    has one. *)
Definition relabel (model : string) (resp : Response) : Response :=
  match resp with
  | SeparationResult track_id stems _ device =>
      SeparationResult track_id stems model device
  | _ => resp
  end.

(** From every state that satisfies [P], [m2] does what [m1] does, except
    that a returned value is passed through [f]. *)
Definition related {A} (P : State → Prop) (f : A → A) (m1 m2 : M A) : Prop :=
  ∀ st, P st → m2 st = (sum_map id f (m1 st).1, (m1 st).2).

(** A 500 is never answered silently: the record written last to the log
    is at level ERROR, has the detail of the response as its message and
    carries the exception that was caught. *)
Definition logged_500 (r : (Raised + Response) * State) : Prop :=
  ∀ detail, r.1 = inl (HTTPException 500 detail) →
    ∃ e, detail = "Separation failed: " +:+ exn_str e ∧
         head (logs r.2) = Some (mkLog ERROR detail (Some (Exception e))).

Lemma wp_ret {A} (a : A) Q st : Q (inr a) st → wp (ret a) Q st.
Proof. done. Qed.

Lemma wp_raise {A} r (Q : Raised + A → State → Prop) st :
  Q (inl r) st → wp (raise r) Q st.
Proof. done. Qed.

Lemma wp_bind {A B} (m : M A) (k : A → M B) Q st :
  wp m (λ r st', match r with
                 | inl e => Q (inl e) st'
                 | inr a => wp (k a) Q st'
                 end) st →
  wp (bind m k) Q st.
Proof. unfold wp, bind. by destruct (m st) as [[e|a] st']. Qed.

Lemma wp_try_finally {A} (body : M A) (fin : M unit) Q st :
  wp body (λ r st1,
    wp fin (λ r2 st2, match r2 with
                      | inl e => Q (inl e) st2
                      | inr _ => Q r st2
                      end) st1) st →
  wp (try_finally body fin) Q st.
Proof.
  unfold wp, try_finally. destruct (body st) as [r st1]; simpl.
  by destruct (fin st1) as [[e|u] st2].
Qed.

Lemma wp_try_except {A} (body : M A) handler Q st :
  wp body (λ r st1, match r with
                    | inl e => wp (handler e) Q st1
                    | inr a => Q (inr a) st1
                    end) st →
  wp (try_except body handler) Q st.
Proof. unfold wp, try_except. by destruct (body st) as [[e|a] st1]. Qed.

Lemma wp_lift_exn {A} (x : PyExn + A) Q st :
  match x with
  | inl e => Q (inl (Exception e)) st
  | inr a => Q (inr a) st
  end →
  wp (lift_exn x) Q st.
Proof. by destruct x. Qed.

Lemma wp_await_read file Q st :
  match read file with
  | inl (Raises e) => Q (inl (Exception e)) st
  | inl Cancelled => Q (inl CancelledError) st
  | inr content => Q (inr content) st
  end →
  wp (await_read file) Q st.
Proof. unfold wp, await_read. by destruct (read file) as [[e|]|content]. Qed.

Lemma wp_logger lvl msg exc Q st :
  Q (inr tt) (push_log (mkLog lvl msg exc) st) → wp (logger lvl msg exc) Q st.
Proof. done. Qed.

Lemma wp_record_call c Q st :
  Q (inr tt) (push_call c st) → wp (record_call c) Q st.
Proof. done. Qed.

Lemma wp_preserves {A} (P : State → Prop) (m : M A) st :
  preserves P m → P st → wp m (λ _ st', P st') st.
Proof. unfold wp, preserves. auto. Qed.

(** [get_separator] written out: the three ways a call can end. *)
Lemma get_separator_unfold {T} (env : Env T) model st :
  get_separator env model st =
  match _separator st with
  | Some s => (inr s, st)
  | None =>
      let device := current_device env in
      let st1 := push_log (mkLog INFO ("Using device: " +:+ device) None)
                   (push_log (mkLog INFO ("Loading Demucs model: " +:+ model) None)
                      st) in
      match load_model env model device with
      | inl e =>
          (inl (Exception e), push_call (CallSeparator model device false) st1)
      | inr sr =>
          let s := mkSeparator model device sr in
          (inr s,
           push_log (mkLog INFO "Model loaded successfully" None)
             (with_separator s
                (push_call (CallSeparator model device true) st1)))
      end
  end.
Proof.
  unfold get_separator, current_device.
  destruct (_separator st) as [s|]; [done|].
  unfold bind, logger_info, logger, Separator_new; simpl.
  by destruct (load_model env model _) as [e|sr].
Qed.

(** The outcome of [get_separator] depends on the cache slot only. *)
Lemma get_separator_outcome {T} (env : Env T) model st st' :
  _separator st' = _separator st →
  (get_separator env model st').1 = (get_separator env model st).1.
Proof.
  intros Heq. rewrite !get_separator_unfold, Heq.
  destruct (_separator st); [done|]; simpl.
  by destruct (load_model env model _).
Qed.

Lemma wp_os_unlink path Q st :
  (let st1 := push_call (CallUnlink path) st in
   match fs st !! path with
   | None => Q (inl (Exception (no_such_file path))) st1
   | Some _ => Q (inr tt) (with_fs (delete path (fs st)) st1)
   end) →
  wp (os_unlink path) Q st.
Proof.
  unfold wp, os_unlink, bind, record_call; simpl.
  by destruct (fs st !! path).
Qed.

Lemma wp_write_temp {T} (env : Env T) suffix content Q st :
  match mkstemp env suffix with
  | inl e => Q (inl (Exception e)) st
  | inr p =>
      let st1 := push_call (CallTempFile p) st in
      match tmp_write env p content with
      | Some e => Q (inl (Exception e)) (with_fs (<[p := []]> (fs st)) st1)
      | None => Q (inr p) (with_fs (<[p := content]> (fs st)) st1)
      end
  end →
  wp (write_temp env suffix content) Q st.
Proof.
  unfold wp, write_temp, bind, lift_exn, record_call, set_fs.
  destruct (mkstemp env suffix) as [e|p]; simpl; [done|].
  destruct (tmp_write env p content) as [e|]; simpl; [done|].
  unfold with_fs; simpl. by rewrite insert_insert_eq.
Qed.

Lemma wp_separate_audio_file {T} (env : Env T) sep path Q st :
  (let st1 := push_call (CallSeparateFile path) st in
   match fs st !! path with
   | None => Q (inl (Exception (missing_audio env sep path))) st1
   | Some content =>
       match run_separation env sep path content with
       | inl e => Q (inl (Exception e)) st1
       | inr r => Q (inr r) st1
       end
   end) →
  wp (separate_audio_file env sep path) Q st.
Proof.
  unfold wp, separate_audio_file, bind, record_call; simpl.
  destruct (fs st !! path) as [content|]; [|done].
  by destruct (run_separation env sep path content).
Qed.

Lemma wp_save {T} (env : Env T) tensor sr fmt Q st :
  (let st1 := push_call (CallSave fmt) st in
   match torchaudio_save env tensor sr fmt with
   | inl e => Q (inl (Exception e)) st1
   | inr data => Q (inr data) st1
   end) →
  wp (save env tensor sr fmt) Q st.
Proof.
  unfold wp, save, bind, record_call; simpl.
  by destruct (torchaudio_save env tensor sr fmt).
Qed.

(** *** Preservation through the control structure *)

Lemma preserves_ret {A} P (a : A) : preserves P (ret a).
Proof. by intros st. Qed.

Lemma preserves_raise {A} P r : preserves P (@raise A r).
Proof. by intros st. Qed.

Lemma preserves_lift_exn {A} P (x : PyExn + A) : preserves P (lift_exn x).
Proof. destruct x; [apply preserves_raise | apply preserves_ret]. Qed.

Lemma preserves_await_read P file : preserves P (await_read file).
Proof.
  unfold await_read.
  destruct (read file) as [[e|]|content];
    [apply preserves_raise | apply preserves_raise | apply preserves_ret].
Qed.

Lemma preserves_bind {A B} P (m : M A) (k : A → M B) :
  preserves P m → (∀ a, preserves P (k a)) → preserves P (bind m k).
Proof.
  intros Hm Hk st HP. specialize (Hm st HP). unfold bind.
  destruct (m st) as [[e|a] st']; simpl in *; [done|]. by apply Hk.
Qed.

Lemma preserves_try_finally {A} P (body : M A) fin :
  preserves P body → preserves P fin → preserves P (try_finally body fin).
Proof.
  intros Hb Hf st HP. specialize (Hb st HP). unfold try_finally.
  destruct (body st) as [r st1]; simpl in *. specialize (Hf st1 Hb).
  by destruct (fin st1) as [[e|u] st2].
Qed.

Lemma preserves_try_except {A} P (body : M A) handler :
  preserves P body → (∀ e, preserves P (handler e)) →
  preserves P (try_except body handler).
Proof.
  intros Hb Hh st HP. specialize (Hb st HP). unfold try_except.
  destruct (body st) as [[e|a] st1]; simpl in *; [|done]. by apply Hh.
Qed.

(** *** Properties that only the cache and the file system can break *)

Section Frame.
Context {T : Type} (env : Env T) (P : State → Prop).
Hypothesis P_log : ∀ r st, P st → P (push_log r st).
Hypothesis P_call :
  ∀ c st, is_constructor_call c = false → P st → P (push_call c st).

Lemma logger_preserves lvl msg exc : preserves P (logger lvl msg exc).
Proof. intros st HP. by apply P_log. Qed.

Lemma record_call_preserves c :
  is_constructor_call c = false → preserves P (record_call c).
Proof. intros Hc st HP. by apply P_call. Qed.

Lemma separate_audio_file_preserves sep path :
  preserves P (separate_audio_file env sep path).
Proof.
  apply preserves_bind; [by apply record_call_preserves|].
  intros _ st HP. destruct (fs st !! path); [|done].
  by apply preserves_lift_exn.
Qed.

Lemma save_preserves tensor sr fmt : preserves P (save env tensor sr fmt).
Proof.
  apply preserves_bind; [by apply record_call_preserves|].
  intros _. apply preserves_lift_exn.
Qed.

Lemma measure_stems_preserves items sr acc :
  preserves P (measure_stems env items sr acc).
Proof.
  revert acc. induction items as [|[n t] rest IH]; intros acc; simpl.
  - apply preserves_ret.
  - apply preserves_bind; [apply save_preserves|]. intros buf. apply IH.
Qed.

Lemma zip_stems_preserves items sr format acc :
  preserves P (zip_stems env items sr format acc).
Proof.
  revert acc. induction items as [|[n t] rest IH]; intros acc; simpl.
  - apply preserves_ret.
  - apply preserves_bind; [|intros buf; apply IH].
    destruct (String.eqb format "mp3"); apply save_preserves.
Qed.

Lemma except_preserves e :
  preserves P (separate_audio_except e) ∧
  preserves P (separate_all_stems_except e).
Proof.
  split; destruct e; try apply preserves_raise;
    (apply preserves_bind; [apply logger_preserves|]);
    intros _; apply preserves_raise.
Qed.

Variable model : string.
Hypothesis P_get : preserves P (get_separator env model).

Lemma separate_audio_try_preserves stem track_id tmp_path :
  preserves P (separate_audio_try env model stem track_id tmp_path).
Proof.
  unfold separate_audio_try.
  apply preserves_bind; [done|]. intros sep.
  apply preserves_bind; [apply logger_preserves|]. intros _.
  apply preserves_bind; [apply separate_audio_file_preserves|].
  intros [origin separated].
  apply preserves_bind; [apply logger_preserves|]. intros _.
  destruct (truthy stem).
  - destruct (dict_get separated _); [|apply preserves_raise].
    apply preserves_bind; [apply save_preserves|].
    intros buf. apply preserves_ret.
  - apply preserves_bind; [apply measure_stems_preserves|].
    intros infos. apply preserves_ret.
Qed.

Lemma separate_all_stems_try_preserves format track_id tmp_path :
  preserves P (separate_all_stems_try env model format track_id tmp_path).
Proof.
  unfold separate_all_stems_try.
  apply preserves_bind; [done|]. intros sep.
  apply preserves_bind; [apply separate_audio_file_preserves|].
  intros [origin separated].
  apply preserves_bind; [apply zip_stems_preserves|].
  intros zf. apply preserves_ret.
Qed.

Hypothesis P_fs : ∀ f st, P st → P (with_fs f st).

Lemma write_temp_preserves suffix content :
  preserves P (write_temp env suffix content).
Proof.
  intros st HP. apply (wp_write_temp env suffix content (λ _ st', P st')).
  destruct (mkstemp env suffix) as [e|p]; [done|].
  destruct (tmp_write env p content); by apply P_fs, P_call.
Qed.

Lemma os_unlink_preserves path : preserves P (os_unlink path).
Proof.
  intros st HP. apply (wp_os_unlink path (λ _ st', P st')); simpl.
  destruct (fs st !! path); [apply P_fs|]; by apply P_call.
Qed.

Lemma separate_audio_preserves file stem :
  preserves P (separate_audio env file model stem).
Proof.
  unfold separate_audio.
  destruct (negb _); [apply preserves_raise|].
  apply preserves_try_except; [|apply except_preserves].
  apply preserves_bind; [apply preserves_await_read|]. intros content.
  apply preserves_bind; [apply logger_preserves|]. intros _.
  apply preserves_bind; [apply write_temp_preserves|]. intros tmp_path.
  apply preserves_try_finally;
    [apply separate_audio_try_preserves | apply os_unlink_preserves].
Qed.

Lemma separate_all_stems_preserves file format :
  preserves P (separate_all_stems env file model format).
Proof.
  unfold separate_all_stems.
  destruct (negb _); [apply preserves_raise|].
  apply preserves_try_except; [|apply except_preserves].
  apply preserves_bind; [apply preserves_await_read|]. intros content.
  apply preserves_bind; [apply logger_preserves|]. intros _.
  apply preserves_bind; [apply write_temp_preserves|]. intros tmp_path.
  apply preserves_try_finally;
    [apply separate_all_stems_try_preserves | apply os_unlink_preserves].
Qed.
End Frame.

Section Serving.
Context {T : Type} (P : State → Prop).
Hypothesis P_log : ∀ r st, P st → P (push_log r st).
Hypothesis P_call :
  ∀ c st, is_constructor_call c = false → P st → P (push_call c st).
Hypothesis P_fs : ∀ f st, P st → P (with_fs f st).

Lemma startup_event_preserves (env : Env T) :
  preserves P (get_separator env "htdemucs") → preserves P (startup_event env).
Proof.
  intros Hget. apply preserves_try_except.
  - apply preserves_bind; [done|]. intros _. apply preserves_ret.
  - intros e. destruct e; try apply preserves_raise; by apply logger_preserves.
Qed.

Lemma serve_preserves (env : Env T) ev :
  (∀ model, preserves P (get_separator env model)) →
  preserves P (serve env ev).
Proof.
  intros Hget. destruct ev; simpl;
    (apply preserves_bind; [|intros ?; apply preserves_ret]).
  - by apply startup_event_preserves.
  - by intros st.
  - by apply separate_audio_preserves.
  - by apply separate_all_stems_preserves.
  - by apply separate_audio_preserves.
Qed.

Lemma run_preserves (history : list (Env T * Event T)) st :
  (∀ (env : Env T) model, preserves P (get_separator env model)) →
  P st → P (run history st).
Proof.
  intros Hget. revert st.
  induction history as [|[env ev] rest IH]; intros st HP; simpl; [done|].
  apply IH. by apply serve_preserves.
Qed.
End Serving.

Lemma loaded_once_cons c cs :
  loaded_once (c :: cs) ↔
  (∃ model device, c = CallSeparator model device true) ∨ loaded_once cs.
Proof.
  unfold loaded_once. split.
  - intros (m & d & Hin). apply elem_of_cons in Hin as [<-|Hin]; eauto.
  - intros [(m & d & ->)|(m & d & Hin)]; exists m, d.
    + apply elem_of_cons; auto.
    + apply elem_of_cons; auto.
Qed.

Lemma get_separator_reflects_loads {T} (env : Env T) model :
  preserves cache_reflects_loads (get_separator env model).
Proof.
  intros st Hinv. rewrite get_separator_unfold.
  destruct (_separator st) as [s|] eqn:Hs; [done|]; simpl.
  unfold cache_reflects_loads in *.
  destruct (load_model env model _) as [e|sr]; simpl.
  - rewrite loaded_once_cons, Hs. split; [by intros [? ?]|].
    intros [(m & d & [=])|Hl]. apply Hinv in Hl. by rewrite Hs in Hl.
  - rewrite loaded_once_cons. split; eauto.
Qed.

Lemma get_separator_keeps_handle {T} (env : Env T) model :
  preserves (λ st, is_Some (_separator st)) (get_separator env model).
Proof.
  intros st [s Hs]. rewrite get_separator_unfold, Hs. simpl. by rewrite Hs.
Qed.

(** ** The model cache *)

(** C1 (as the code has it).  The cache is a single slot: when it is empty,
    [get_separator] invokes the constructor for the named model on the
    selected device (cuda if available, else cpu) and, if the constructor
    returns, records and returns the new handle; when the slot is occupied,
    the handle in it is returned and nothing changes, whichever model that
    handle was built for. *)
Theorem get_separator_single_slot {T} (env : Env T) (model : string) (st : State) :
  current_device env = (if cuda_is_available env then "cuda" else "cpu") ∧
  match _separator st with
  | Some s => get_separator env model st = (inr s, st)
  | None =>
      let device := current_device env in
      let r := get_separator env model st in
      match load_model env model device with
      | inr sr =>
          let s := mkSeparator model device sr in
          r.1 = inr s ∧ _separator r.2 = Some s ∧ holds_handle_for r.2 model ∧
          calls r.2 = CallSeparator model device true :: calls st ∧
          fs r.2 = fs st
      | inl e =>
          r.1 = inl (Exception e) ∧
          calls r.2 = CallSeparator model device false :: calls st
      end
  end.
Proof.
  split; [done|]. rewrite get_separator_unfold.
  destruct (_separator st) as [s|]; [done|]; simpl.
  destruct (load_model env model _) as [e|sr]; simpl; [done|].
  repeat split; try done. by eexists.
Qed.

(** C1 (as stated) fails: once [htdemucs] is loaded, a call that names
    [mdx_extra] -- for which no handle exists -- constructs nothing and is
    handed the [htdemucs] handle. *)
Lemma get_separator_ignores_other_model :
  ¬ loads_per_identifier demo_env "mdx_extra" warm_state.
Proof.
  intros Hclaim.
  destruct (Hclaim) with (sr := 44100) as [Hres _].
  - intros (s & [= <-] & [=]).
  - reflexivity.
  - vm_compute in Hres. discriminate Hres.
Qed.

(** C8.  Of two sequential calls, once the first has returned a handle the
    second (whatever the libraries would do then) returns the same handle
    and leaves the process state as it is, so that no constructor call is
    added: the two calls together make at most one. *)
Theorem get_separator_loads_once {T} (env1 env2 : Env T) (model : string)
    (st : State) (s : Separator) :
  (get_separator env1 model st).1 = inr s →
  let st1 := (get_separator env1 model st).2 in
  get_separator env2 model st1 = (inr s, st1) ∧
  _separator st1 = Some s ∧
  (length (filter is_constructor_call
             (calls (get_separator env2 model st1).2))
   ≤ S (length (filter is_constructor_call (calls st))))%nat.
Proof.
  intros Hfirst. simpl.
  assert (_separator (get_separator env1 model st).2 = Some s
          ∧ (length (filter is_constructor_call
                       (calls (get_separator env1 model st).2))
             ≤ S (length (filter is_constructor_call (calls st))))%nat)
    as [Hslot Hcount].
  { revert Hfirst. rewrite get_separator_unfold.
    destruct (_separator st) as [s0|] eqn:Hs; simpl.
    - intros [= ->]. split; [done|lia].
    - destruct (load_model env1 model _) as [e|sr]; simpl; [done|].
      intros [= <-]. split; [done|]. cbn. lia. }
  assert (get_separator env2 model (get_separator env1 model st).2
          = (inr s, (get_separator env1 model st).2)) as Hsecond.
  { rewrite (get_separator_unfold env2). by rewrite Hslot. }
  by rewrite Hsecond.
Qed.

Lemma get_separator_loads_once_witness :
  get_separator demo_env "htdemucs"
    (get_separator demo_env "htdemucs" init_state).2
  = (inr htdemucs_handle, (get_separator demo_env "htdemucs" init_state).2).
Proof.
  apply (get_separator_loads_once demo_env demo_env "htdemucs" init_state
           htdemucs_handle).
  reflexivity.
Defined.

(** C10.  When the constructor raises for the model that is asked for, the
    exception leaves [get_separator] before the global is assigned: the slot
    stays empty.  A failed load inside either request handler ends the
    request, a failed warm-up (the model asked for is then the default one)
    is swallowed by [startup_event], and in all these cases the health
    report still says [model_loaded = false] and the next [get_separator]
    invokes the constructor again. *)
Theorem failed_load_leaves_cache_empty {T} (env : Env T) (model : string)
    (st : State) (e : PyExn) :
  _separator st = None →
  load_model env model (current_device env) = inl e →
  let after := λ st' : State,
    _separator st' = None ∧
    (∀ env' : Env T,
       health_check env' st' =
       (inr (HealthReport "healthy" (current_device env')
               (cuda_is_available env') false), st')) ∧
    (∀ (env' : Env T) model',
       ∃ ok, calls (get_separator env' model' st').2 =
             CallSeparator model' (current_device env') ok :: calls st') in
  (get_separator env model st).1 = inl (Exception e) ∧
  after (get_separator env model st).2 ∧
  (∀ file stem, after (separate_audio env file model stem st).2) ∧
  (∀ file format, after (separate_all_stems env file model format st).2) ∧
  (model = "htdemucs" →
   (startup_event env st).1 = inr tt ∧ after (startup_event env st).2).
Proof.
  intros Hempty Hload after.
  assert (∀ st', _separator st' = None → after st') as Hafter.
  { intros st' Hs. split; [done|]. split.
    - intros env'. unfold health_check, ret, current_device. by rewrite Hs.
    - intros env' model'. rewrite get_separator_unfold, Hs; simpl.
      destruct (load_model env' model' _); simpl; eauto. }
  assert (preserves (λ st', _separator st' = None) (get_separator env model))
    as Hget.
  { intros st' Hs. rewrite get_separator_unfold, Hs; simpl.
    by rewrite Hload. }
  split; [by rewrite get_separator_unfold, Hempty; simpl; rewrite Hload|].
  split; [by apply Hafter, Hget|].
  split; [|split].
  - intros file stem. apply Hafter.
    by apply separate_audio_preserves.
  - intros file format. apply Hafter.
    by apply separate_all_stems_preserves.
  - intros ->. split.
    + unfold startup_event, try_except, bind.
      rewrite get_separator_unfold, Hempty; simpl. by rewrite Hload.
    + by apply Hafter, startup_event_preserves.
Qed.

Lemma failed_load_leaves_cache_empty_witness :
  (get_separator picky_env "mdx_extra" init_state).1
  = inl (Exception (mkExn "mdx_extra is not a pre-trained model")) ∧
  _separator (get_separator picky_env "mdx_extra" init_state).2 = None ∧
  _separator (startup_event broken_env init_state).2 = None.
Proof.
  pose proof (failed_load_leaves_cache_empty picky_env "mdx_extra" init_state
                (mkExn "mdx_extra is not a pre-trained model")
                eq_refl eq_refl) as (Hget & (Hslot & _) & _).
  pose proof (failed_load_leaves_cache_empty broken_env "htdemucs" init_state
                (mkExn "checkpoint not found")
                eq_refl eq_refl) as (_ & _ & _ & _ & Hstart).
  destruct (Hstart eq_refl) as (_ & Hwarm & _).
  split; [exact Hget|]. split; [exact Hslot | exact Hwarm].
Defined.

(** ** Health *)

(** C9.  [health_check] returns a report in every state and changes nothing;
    [model_loaded] is true exactly when the slot holds a handle.  In every
    state the process can reach from its start, the slot holds a handle
    exactly when some constructor call has succeeded, and a handle, once
    held, is held after every later event. *)
Theorem health_check_never_fails {T} :
  (∀ (env : Env T) st,
     ∃ loaded,
       health_check env st =
       (inr (HealthReport "healthy"
               (if cuda_is_available env then "cuda" else "cpu")
               (cuda_is_available env) loaded), st) ∧
       (loaded = true ↔ is_Some (_separator st))) ∧
  (∀ history : list (Env T * Event T),
     is_Some (_separator (run history init_state)) ↔
     loaded_once (calls (run history init_state))) ∧
  (∀ (history : list (Env T * Event T)) st,
     is_Some (_separator st) → is_Some (_separator (run history st))).
Proof.
  split; [|split].
  - intros env st. unfold health_check, ret.
    destruct (_separator st) as [s|]; eexists; (split; [reflexivity|]).
    + split; eauto.
    + split; [done|]. by intros [? ?].
  - intros history.
    apply (run_preserves cache_reflects_loads); try done.
    + intros c cs Hc Hinv. unfold cache_reflects_loads in *; simpl.
      rewrite loaded_once_cons, Hinv. split; [auto|].
      intros [(m & d & ->)|Hl]; [done|auto].
    + intros env model. apply get_separator_reflects_loads.
    + unfold cache_reflects_loads, loaded_once; simpl. split.
      * by intros [? ?].
      * intros (m & d & Hin). by apply elem_of_nil in Hin.
  - intros history st.
    apply (run_preserves (λ st, is_Some (_separator st))); try done.
    intros env model. apply get_separator_keeps_handle.
Qed.

Lemma health_check_never_fails_witness :
  is_Some (_separator
             (run [(demo_env, Startup); (demo_env, GetHealth)] init_state)).
Proof.
  apply (proj2 (proj2 health_check_never_fails) [(demo_env, GetHealth)]
           (run [(demo_env, Startup)] init_state)).
  vm_compute. eauto.
Defined.

(** ** Input validation *)

(** C7.  A request whose upload has no filename, or an empty one, is
    answered with status 400 by both handlers, and the process state is left
    as it was: nothing was read, no scratch file was created. *)
Theorem missing_filename_rejected {T} (env : Env T) (file : UploadFile)
    (model format : string) (stem : option string) (st : State) :
  truthy (filename file) = false →
  separate_audio env file model stem st
  = (inl (HTTPException 400 "No filename provided"), st) ∧
  separate_all_stems env file model format st
  = (inl (HTTPException 400 "No filename provided"), st).
Proof.
  intros Hname. unfold separate_audio, separate_all_stems.
  by rewrite Hname.
Qed.

Lemma missing_filename_rejected_witness :
  truthy (filename unnamed_file) = false ∧
  separate_audio demo_env unnamed_file "htdemucs" None init_state
  = (inl (HTTPException 400 "No filename provided"), init_state) ∧
  separate_all_stems demo_env unnamed_file "htdemucs" "wav" init_state
  = (inl (HTTPException 400 "No filename provided"), init_state).
Proof.
  split; [reflexivity|].
  apply (missing_filename_rejected demo_env unnamed_file "htdemucs" "wav"
           None init_state).
  reflexivity.
Defined.

(** ** Scratch files *)

Lemma get_separator_keeps_fs {T} (env : Env T) model F :
  preserves (λ st, fs st = F) (get_separator env model).
Proof.
  intros st HF. rewrite get_separator_unfold.
  destruct (_separator st); [done|]; simpl.
  by destruct (load_model env model _).
Qed.

(** [try: body finally: os.unlink(path)] when [body] leaves the file system
    alone and the file is there: the file is removed on every exit and the
    outcome of [body] stands. *)
Lemma wp_guarded {A} (body : M A) path content Q st :
  fs st !! path = Some content →
  (∀ F, preserves (λ s, fs s = F) body) →
  wp body (λ r st2, Q r (scratch_removed path st2)) st →
  wp (try_finally body (os_unlink path)) Q st.
Proof.
  intros Hfile Hkeep Hbody. apply wp_try_finally.
  pose proof (Hkeep (fs st) st eq_refl) as Hfs.
  unfold wp in *. destruct (body st) as [r st2]; simpl in *.
  change (wp (os_unlink path)
            (λ r2 st3, match r2 with
                       | inl e => Q (inl e) st3
                       | inr _ => Q r st3
                       end) st2).
  apply wp_os_unlink; simpl.
  unfold scratch_removed in Hbody. rewrite Hfs in Hbody. by rewrite Hfs, Hfile.
Qed.

Lemma separate_audio_enter {T} (env : Env T) file model stem st
    file_name content path Q :
  filename file = Some file_name → file_name ≠ EmptyString →
  read file = inr content →
  mkstemp env (path_suffix env file_name) = inr path →
  tmp_write env path content = None →
  wp (separate_audio_try env model stem (uuid4 env) path)
     (λ r st2, match r with
               | inl e => wp (separate_audio_except e) Q (scratch_removed path st2)
               | inr a => Q (inr a) (scratch_removed path st2)
               end)
     (scratch_written
        ("Processing file: " +:+ file_name +:+ " ("
         +:+ pretty (length content) +:+ " bytes)") path content st) →
  wp (separate_audio env file model stem) Q st.
Proof.
  intros Hname Hne Hread Htmp Hwrite Hbody.
  assert (truthy (Some file_name) = true) as Htruthy
    by (by destruct file_name).
  unfold separate_audio. rewrite Hname, Htruthy.
  change (default EmptyString (Some file_name)) with file_name. cbn [negb].
  apply wp_try_except, wp_bind, wp_await_read. rewrite Hread.
  apply wp_bind, wp_logger, wp_bind, wp_write_temp.
  rewrite Htmp; cbn zeta. rewrite Hwrite.
  eapply wp_guarded; [apply lookup_insert_eq | | exact Hbody].
  intros F. apply separate_audio_try_preserves; try done.
  apply get_separator_keeps_fs.
Qed.

Lemma separate_all_stems_enter {T} (env : Env T) file model format st
    file_name content path Q :
  filename file = Some file_name → file_name ≠ EmptyString →
  read file = inr content →
  mkstemp env (path_suffix env file_name) = inr path →
  tmp_write env path content = None →
  wp (separate_all_stems_try env model format (uuid4 env) path)
     (λ r st2, match r with
               | inl e =>
                   wp (separate_all_stems_except e) Q (scratch_removed path st2)
               | inr a => Q (inr a) (scratch_removed path st2)
               end)
     (scratch_written ("Processing file for all stems: " +:+ file_name)
        path content st) →
  wp (separate_all_stems env file model format) Q st.
Proof.
  intros Hname Hne Hread Htmp Hwrite Hbody.
  assert (truthy (Some file_name) = true) as Htruthy
    by (by destruct file_name).
  unfold separate_all_stems. rewrite Hname, Htruthy.
  change (default EmptyString (Some file_name)) with file_name. cbn [negb].
  apply wp_try_except, wp_bind, wp_await_read. rewrite Hread.
  apply wp_bind, wp_logger, wp_bind, wp_write_temp.
  rewrite Htmp; cbn zeta. rewrite Hwrite.
  eapply wp_guarded; [apply lookup_insert_eq | | exact Hbody].
  intros F. apply separate_all_stems_try_preserves; try done.
  apply get_separator_keeps_fs.
Qed.

(** Inside the guarded block the deletion is never skipped: once a request
    has put its upload into a scratch file, the file is gone from the file
    system in the state that accompanies the response of either handler,
    whatever the engine does: load failure, inference failure, unknown
    stem, encoding failure or success. *)
Theorem scratch_file_always_deleted {T} (env : Env T) (file : UploadFile)
    (model format : string) (stem : option string) (st : State)
    (file_name path : string) (content : bytes) :
  filename file = Some file_name → file_name ≠ EmptyString →
  read file = inr content →
  mkstemp env (path_suffix env file_name) = inr path →
  tmp_write env path content = None →
  fs (separate_audio env file model stem st).2 !! path = None ∧
  fs (separate_all_stems env file model format st).2 !! path = None.
Proof.
  intros Hname Hne Hread Htmp Hwrite.
  set (gone := λ st' : State, fs st' !! path = None).
  assert (∀ st', gone (scratch_removed path st')) as Hgone
    by (intros st'; apply lookup_delete_eq).
  assert (∀ e, preserves gone (separate_audio_except e)
               ∧ preserves gone (separate_all_stems_except e)) as Hexc
    by (intros e; by apply except_preserves).
  split.
  - apply (separate_audio_enter env file model stem st file_name content path
             (λ _ st', gone st')); try done.
    unfold wp at 1.
    destruct (separate_audio_try _ _ _ _ _ _) as [[e|a] st2]; simpl; [|done].
    apply wp_preserves; [apply Hexc | apply Hgone].
  - apply (separate_all_stems_enter env file model format st file_name content
             path (λ _ st', gone st')); try done.
    unfold wp at 1.
    destruct (separate_all_stems_try _ _ _ _ _ _) as [[e|a] st2]; simpl; [|done].
    apply wp_preserves; [apply Hexc | apply Hgone].
Qed.

Lemma scratch_file_always_deleted_witness :
  fs (separate_audio demo_env demo_file "htdemucs" (Some "guitar")
        init_state).2 !! "/tmp/tmpk3x9_a7q.mp3" = None ∧
  fs (separate_all_stems oom_env demo_file "htdemucs" "wav"
        init_state).2 !! "/tmp/tmpk3x9_a7q.mp3" = None.
Proof.
  split.
  - apply (scratch_file_always_deleted demo_env demo_file "htdemucs" "wav"
             (Some "guitar") init_state "song.mp3" "/tmp/tmpk3x9_a7q.mp3"
             [Byte.x01; Byte.x02]); done.
  - apply (scratch_file_always_deleted oom_env demo_file "htdemucs" "wav"
             None init_state "song.mp3" "/tmp/tmpk3x9_a7q.mp3"
             [Byte.x01; Byte.x02]); done.
Defined.

(** ** Stem selection *)

Lemma dict_get_None {T} (separated : list (string * T)) key :
  key ∉ separated.*1 → dict_get separated key = None.
Proof.
  induction separated as [|[k v] rest IH]; simpl; [done|].
  intros Hnotin. apply not_elem_of_cons in Hnotin as [Hne Hrest].
  destruct (String.eqb_spec k key); [congruence|]. by apply IH.
Qed.

Lemma prefix_nil t : String.prefix EmptyString t = true.
Proof. by destruct t. Qed.

Lemma prefix_app s t : String.prefix s (s +:+ t) = true.
Proof.
  induction s as [|a s IH]; simpl; [apply prefix_nil|].
  destruct (ascii_dec a a); [exact IH|done].
Qed.

Lemma prefix_app_l s a t :
  String.prefix s a = true → String.prefix s (a +:+ t) = true.
Proof.
  revert a. induction s as [|c s IH]; intros a; [intros _; apply prefix_nil|].
  destruct a as [|d a]; simpl; [done|].
  destruct (ascii_dec c d); [apply IH|done].
Qed.

Lemma str_contains_prefix s hay :
  String.prefix s hay = true → str_contains s hay = true.
Proof. intros Hp. destruct hay; cbn [str_contains]; by rewrite Hp. Qed.

Lemma str_contains_here s t : str_contains s (s +:+ t) = true.
Proof. apply str_contains_prefix, prefix_app. Qed.

Lemma str_contains_app_r s a t :
  str_contains s t = true → str_contains s (a +:+ t) = true.
Proof.
  intros Ht. induction a as [|c a IH]; simpl; [done|].
  rewrite IH. apply orb_true_r.
Qed.

Lemma str_contains_app_l s a t :
  str_contains s a = true → str_contains s (a +:+ t) = true.
Proof.
  induction a as [|c a IH]; cbn [str_contains String.append].
  - rewrite orb_false_r. intros Hp. apply str_contains_prefix.
    destruct s; [apply prefix_nil|done].
  - intros [Hp|Hc]%orb_true_iff; apply orb_true_iff.
    + left. exact (prefix_app_l s (String c a) t Hp).
    + right. by apply IH.
Qed.

Lemma str_contains_refl s : str_contains s s = true.
Proof.
  apply str_contains_prefix. induction s as [|a s IH]; simpl; [done|].
  destruct (ascii_dec a a); [exact IH|done].
Qed.

Lemma join_contains sep x l : x ∈ l → str_contains x (join sep l) = true.
Proof.
  induction l as [|a l IH]; intros Hin; [by apply elem_of_nil in Hin|].
  destruct l as [|b l]; cbn [join].
  - apply list_elem_of_singleton in Hin as ->. apply str_contains_refl.
  - apply elem_of_cons in Hin as [->|Hin]; [apply str_contains_here|].
    by apply str_contains_app_r, str_contains_app_r, IH.
Qed.

(** Every name of a list shows, quoted, in the [repr] of the list. *)
Lemma py_repr_list_enumerates names n :
  n ∈ names → str_contains (py_repr_str n) (py_repr_list names) = true.
Proof.
  intros Hin. unfold py_repr_list.
  apply (str_contains_app_r _ "["), str_contains_app_l, join_contains.
  by apply list_elem_of_fmap_2.
Qed.

(** [get_separator] when it is known to hand out [sep]: all it may change
    besides the cache is the log and the list of constructor calls. *)
Lemma wp_get_separator_ok {T} (env : Env T) model sep st0 Q st :
  (get_separator env model st0).1 = inr sep →
  _separator st = _separator st0 →
  (∀ st2, fs st2 = fs st →
          filter is_save_call (calls st2) = filter is_save_call (calls st) →
          _separator st2 = Some sep →
          Q (inr sep) st2) →
  wp (get_separator env model) Q st.
Proof.
  intros Hout Hslot HQ. unfold wp.
  rewrite <- (get_separator_outcome env model st0 st Hslot) in Hout.
  rewrite Hout. revert Hout. rewrite get_separator_unfold.
  destruct (_separator st) as [s|] eqn:Hs; simpl.
  - intros [= ->]. by apply HQ.
  - destruct (load_model env model _); simpl; [done|].
    intros [= <-]. by apply HQ.
Qed.

(** C3.  When the engine has returned its stems and the requested stem is
    not one of their names, [separate_audio] answers with status 400; the
    detail is the text below, which ends in the [repr] of the list of the
    names the engine returned and so shows every one of them; and the
    request has not called [torchaudio.save] at all. *)
Theorem unknown_stem_rejected {T} (env : Env T) (file : UploadFile)
    (model stem : string) (st : State) (file_name path : string)
    (content : bytes) (sep : Separator) (origin : T)
    (separated : list (string * T)) :
  filename file = Some file_name → file_name ≠ EmptyString →
  read file = inr content →
  mkstemp env (path_suffix env file_name) = inr path →
  tmp_write env path content = None →
  (get_separator env model st).1 = inr sep →
  run_separation env sep path content = inr (origin, separated) →
  stem ≠ EmptyString →
  stem ∉ separated.*1 →
  let r := separate_audio env file model (Some stem) st in
  let detail := "Stem '" +:+ stem +:+ "' not found. Available: "
                +:+ py_repr_list separated.*1 in
  r.1 = inl (HTTPException 400 detail) ∧
  (∀ n, n ∈ separated.*1 → str_contains (py_repr_str n) detail = true) ∧
  filter is_save_call (calls r.2) = filter is_save_call (calls st).
Proof.
  intros Hname Hne Hread Htmp Hwrite Hsep Hrun Hstem Hnotin r detail.
  assert (wp (separate_audio env file model (Some stem))
            (λ r st', r = inl (HTTPException 400 detail) ∧
                      filter is_save_call (calls st')
                      = filter is_save_call (calls st)) st) as [Hr Hcalls].
  { eapply separate_audio_enter; try done.
    unfold separate_audio_try.
    apply wp_bind, (wp_get_separator_ok env model sep st); [done|done|].
    intros st2 Hfs Hsaves Hslot.
    apply wp_bind, wp_logger, wp_bind, wp_separate_audio_file; cbn zeta.
    cbn [fs push_log]. rewrite Hfs. unfold scratch_written at 1.
    cbn [fs with_fs]. rewrite lookup_insert_eq, Hrun.
    apply wp_bind, wp_logger.
    assert (truthy (Some stem) = true) as -> by (by destruct stem).
    change (default EmptyString (Some stem)) with stem.
    rewrite (dict_get_None separated stem Hnotin).
    apply wp_raise, wp_raise. split; [done|]. cbn. exact Hsaves. }
  split; [exact Hr|]. split; [|exact Hcalls].
  intros n Hn. unfold detail.
  by apply str_contains_app_r, str_contains_app_r, str_contains_app_r,
           py_repr_list_enumerates.
Qed.

Lemma unknown_stem_rejected_witness :
  (separate_audio demo_env demo_file "htdemucs" (Some "guitar") init_state).1
  = inl (HTTPException 400
           "Stem 'guitar' not found. Available: ['vocals', 'drums', 'bass', 'other']").
Proof.
  refine (proj1 (unknown_stem_rejected demo_env demo_file "htdemucs" "guitar"
                   init_state "song.mp3" "/tmp/tmpk3x9_a7q.mp3"
                   [Byte.x01; Byte.x02] htdemucs_handle 0%nat demo_stems
                   _ _ _ _ _ _ _ _ _)); try done.
  by apply (bool_decide_unpack _).
Defined.

(** ** Failures of the engine *)

(** C4 (as the code has it).  When the engine raises on the scratch file,
    both handlers answer with status 500 and the detail
    [Separation failed: ] followed by [str(e)] of the cause, so the text of
    the cause is part of the response; the same text, with the exception
    attached, is the last record written to the log, at level ERROR. *)
Theorem engine_failure_reported {T} (env : Env T) (file : UploadFile)
    (model format : string) (stem : option string) (st : State)
    (file_name path : string) (content : bytes) (sep : Separator)
    (cause : PyExn) :
  filename file = Some file_name → file_name ≠ EmptyString →
  read file = inr content →
  mkstemp env (path_suffix env file_name) = inr path →
  tmp_write env path content = None →
  (get_separator env model st).1 = inr sep →
  run_separation env sep path content = inl cause →
  let detail := "Separation failed: " +:+ exn_str cause in
  let reported := λ r : (Raised + Response) * State,
    r.1 = inl (HTTPException 500 detail) ∧
    head (logs r.2) = Some (mkLog ERROR detail (Some (Exception cause))) in
  reported (separate_audio env file model stem st) ∧
  reported (separate_all_stems env file model format st) ∧
  str_contains (exn_str cause) detail = true.
Proof.
  intros Hname Hne Hread Htmp Hwrite Hsep Hrun detail reported.
  split; [|split].
  - apply (separate_audio_enter env file model stem st file_name content path
             (λ r st', reported (r, st'))); try done.
    unfold separate_audio_try.
    apply wp_bind, (wp_get_separator_ok env model sep st); [done|done|].
    intros st2 Hfs Hsaves Hslot.
    apply wp_bind, wp_logger, wp_bind, wp_separate_audio_file; cbn zeta.
    cbn [fs push_log]. rewrite Hfs. unfold scratch_written at 1.
    cbn [fs with_fs]. rewrite lookup_insert_eq, Hrun.
    apply wp_bind, wp_logger, wp_raise. by split.
  - apply (separate_all_stems_enter env file model format st file_name content
             path (λ r st', reported (r, st'))); try done.
    unfold separate_all_stems_try.
    apply wp_bind, (wp_get_separator_ok env model sep st); [done|done|].
    intros st2 Hfs Hsaves Hslot.
    apply wp_bind, wp_separate_audio_file; cbn zeta.
    rewrite Hfs. unfold scratch_written at 1.
    cbn [fs with_fs]. rewrite lookup_insert_eq, Hrun.
    apply wp_bind, wp_logger, wp_raise. by split.
  - apply str_contains_app_r, str_contains_refl.
Qed.

Lemma engine_failure_reported_witness :
  (separate_audio oom_env demo_file "htdemucs" None init_state).1
  = inl (HTTPException 500 "Separation failed: CUDA out of memory") ∧
  (separate_all_stems oom_env demo_file "htdemucs" "wav" init_state).1
  = inl (HTTPException 500 "Separation failed: CUDA out of memory").
Proof.
  pose proof (engine_failure_reported oom_env demo_file "htdemucs" "wav" None
                init_state "song.mp3" "/tmp/tmpk3x9_a7q.mp3"
                [Byte.x01; Byte.x02] htdemucs_handle
                (mkExn "CUDA out of memory")) as H.
  destruct H as ([H1 _] & [H2 _] & _); try done.
Defined.

(** C4 (as stated) fails: on a host whose engine raises
    [CUDA out of memory], the body of the 500 response shows that text. *)
Lemma engine_failure_cause_in_body :
  (∀ sep path content,
     run_separation oom_env sep path content
     = inl (mkExn "CUDA out of memory")) ∧
  ¬ hides_cause
      (separate_audio oom_env demo_file "htdemucs" None init_state).1
      (mkExn "CUDA out of memory") ∧
  ¬ hides_cause
      (separate_all_stems oom_env demo_file "htdemucs" "wav" init_state).1
      (mkExn "CUDA out of memory").
Proof.
  split; [done|].
  split; intros (detail & Hr & Hhidden); vm_compute in Hr;
    injection Hr as <-; vm_compute in Hhidden; discriminate Hhidden.
Qed.

(** ** Packaging *)

Lemma append_cons a s t : String a s +:+ t = String a (s +:+ t).
Proof. reflexivity. Qed.

Lemma append_nil t : EmptyString +:+ t = t.
Proof. reflexivity. Qed.

Lemma length_append s t :
  String.length (s +:+ t) = (String.length s + String.length t)%nat.
Proof.
  induction s as [|a s IH]; [done|].
  rewrite append_cons. cbn [String.length Nat.add]. by rewrite IH.
Qed.

Lemma append_inj_l s1 s2 t : s1 +:+ t = s2 +:+ t → s1 = s2.
Proof.
  revert s2. induction s1 as [|a s1 IH]; intros [|b s2];
    rewrite ?append_cons, ?append_nil; intros Heq; try done.
  - apply (f_equal String.length) in Heq.
    cbn [String.length] in Heq. rewrite length_append in Heq. lia.
  - apply (f_equal String.length) in Heq.
    cbn [String.length] in Heq. rewrite length_append in Heq. lia.
  - injection Heq as -> Heq. by rewrite (IH s2 Heq).
Qed.

Lemma saved_succ n st :
  saved n (push_call (CallSave "wav") st)
  = push_call (CallSave "wav") (saved n st).
Proof.
  unfold saved. induction n as [|n IH]; simpl; [done|by rewrite IH].
Qed.

(** The metadata loop when every encoding succeeds. *)
Lemma wp_measure_stems {T} (env : Env T) items sr acc datas Q st :
  encodes_to env sr items datas →
  Q (inr (acc ++ zip_with (λ item data, mkStemInfo item.1 (length data))
                   items datas))
    (saved (length items) st) →
  wp (measure_stems env items sr acc) Q st.
Proof.
  intros Henc. revert acc st.
  induction Henc as [|[n t] data items datas Hsave _ IH]; intros acc st HQ.
  - simpl in *. by rewrite app_nil_r in HQ.
  - cbn [measure_stems]. apply wp_bind, wp_save; cbn zeta.
    simpl in Hsave. rewrite Hsave. apply IH.
    rewrite <- app_assoc, saved_succ. exact HQ.
Qed.

(** The archive loop when every encoding succeeds, for any [format]. *)
Lemma wp_zip_stems {T} (env : Env T) items sr format acc datas Q st :
  encodes_to env sr items datas →
  Q (inr (acc ++ zip_with (λ item data,
                             (zipinfo_filename (item.1 +:+ ".wav"), data))
                   items datas))
    (saved (length items) st) →
  wp (zip_stems env items sr format acc) Q st.
Proof.
  intros Henc. revert acc st.
  induction Henc as [|[n t] data items datas Hsave _ IH]; intros acc st HQ.
  - simpl in *. by rewrite app_nil_r in HQ.
  - cbn [zip_stems]. apply wp_bind.
    simpl in Hsave.
    destruct (String.eqb format "mp3");
      (apply wp_save; cbn zeta; rewrite Hsave; apply IH;
       rewrite <- app_assoc, saved_succ; exact HQ).
Qed.

Lemma zip_with_names {T B} (f : string → string) (g : string * T → bytes → B)
    (h : B → string) (P : string * T → bytes → Prop)
    (items : list (string * T)) (datas : list bytes) :
  (∀ item data, h (g item data) = f item.1) →
  Forall2 P items datas →
  h <$> zip_with g items datas = f <$> items.*1.
Proof.
  intros Hh Hall. induction Hall as [|item data items datas _ _ IH]; [done|].
  cbn. by rewrite Hh, <- IH.
Qed.

Lemma zipinfo_filename_plain s :
  str_mem nul_char s = false → zipinfo_filename s = s.
Proof.
  induction s as [|c s IH]; cbn [str_mem zipinfo_filename]; [done|].
  destruct (Ascii.eqb nul_char c); [done|]. intros Hs. by rewrite IH.
Qed.

Lemma str_mem_app c s t :
  str_mem c (s +:+ t) = str_mem c s || str_mem c t.
Proof.
  induction s as [|d s IH]; [done|].
  rewrite append_cons. cbn [str_mem]. by destruct (Ascii.eqb c d).
Qed.

(** For stem names without a null character the archive files each entry
    under the name it was given. *)
Lemma zip_entries_plain {T} (items : list (string * T)) (datas : list bytes) :
  Forall (λ n, str_mem nul_char n = false) items.*1 →
  zip_with (λ item data, (zipinfo_filename (item.1 +:+ ".wav"), data))
    items datas
  = zip_with (λ item data, (item.1 +:+ ".wav", data)) items datas.
Proof.
  revert datas. induction items as [|[n t] items IH]; intros datas Hall;
    [done|].
  destruct datas as [|data datas]; [done|].
  apply Forall_cons in Hall as [Hn Hall]. cbn [zip_with fst].
  rewrite (IH datas Hall), zipinfo_filename_plain; [done|].
  rewrite str_mem_app. simpl in Hn. by rewrite Hn.
Qed.

(** C5.  A bundle request that succeeds returns, for every value of
    [format] -- [mp3] included --, a zip archive whose entries are, in the
    engine's order, one per stem of the engine's result: the entry of stem
    [n] is named [n.wav] and holds what [torchaudio.save] wrote for that
    stem with [format="wav"].  The entry names are pairwise distinct, and
    the archive is delivered as attachment [stems_<track_id>.zip].  Stem
    names are taken to hold no null character: [zipfile] would end the
    entry name there. *)
Theorem bundle_has_one_wav_per_stem {T} (env : Env T) (file : UploadFile)
    (model format : string) (st : State) (file_name path : string)
    (content : bytes) (sep : Separator) (origin : T)
    (separated : list (string * T)) (datas : list bytes) :
  filename file = Some file_name → file_name ≠ EmptyString →
  read file = inr content →
  mkstemp env (path_suffix env file_name) = inr path →
  tmp_write env path content = None →
  (get_separator env model st).1 = inr sep →
  run_separation env sep path content = inr (origin, separated) →
  NoDup separated.*1 →
  Forall (λ n, str_mem nul_char n = false) separated.*1 →
  encodes_to env (samplerate sep) separated datas →
  let entries :=
    zip_with (λ item data, (item.1 +:+ ".wav", data)) separated datas in
  (separate_all_stems env file model format st).1
  = inr (StreamingResponse (ZipFile entries) "application/zip"
           [("Content-Disposition",
             "attachment; filename=" +:+ str1 dquote_char
               +:+ ("stems_" +:+ uuid4 env +:+ ".zip") +:+ str1 dquote_char);
            ("X-Track-Id", uuid4 env)]) ∧
  entries.*1 = (λ n, n +:+ ".wav") <$> separated.*1 ∧
  length entries = length separated ∧
  NoDup entries.*1.
Proof.
  intros Hname Hne Hread Htmp Hwrite Hsep Hrun Hdict Hplain Henc entries.
  assert (entries.*1 = (λ n, n +:+ ".wav") <$> separated.*1) as Hnames
    by (by eapply zip_with_names).
  split; [|split; [done|split]].
  - apply (separate_all_stems_enter env file model format st file_name content
             path (λ r _, r = _)); try done.
    unfold separate_all_stems_try.
    apply wp_bind, (wp_get_separator_ok env model sep st); [done|done|].
    intros st2 Hfs Hsaves Hslot.
    apply wp_bind, wp_separate_audio_file; cbn zeta.
    rewrite Hfs. unfold scratch_written at 1.
    cbn [fs with_fs]. rewrite lookup_insert_eq, Hrun.
    apply wp_bind. eapply wp_zip_stems; [exact Henc|].
    apply wp_ret. cbn [app]. by rewrite (zip_entries_plain _ _ Hplain).
  - unfold entries. rewrite length_zip_with.
    apply Forall2_length in Henc. lia.
  - rewrite Hnames. apply NoDup_fmap_2; [|done].
    intros n1 n2 Heq. by apply append_inj_l in Heq.
Qed.

Lemma bundle_has_one_wav_per_stem_witness :
  (separate_all_stems demo_env demo_file "htdemucs" "mp3" init_state).1
  = inr (StreamingResponse
           (ZipFile [("vocals.wav", replicate 41 Byte.x00);
                     ("drums.wav", replicate 42 Byte.x00);
                     ("bass.wav", replicate 43 Byte.x00);
                     ("other.wav", replicate 44 Byte.x00)])
           "application/zip"
           [("Content-Disposition",
             "attachment; filename=" +:+ str1 dquote_char
               +:+ "stems_1b4e28ba-2fa1-11d2-883f-0016d3cca427.zip"
               +:+ str1 dquote_char);
            ("X-Track-Id", "1b4e28ba-2fa1-11d2-883f-0016d3cca427")]).
Proof.
  refine (proj1 (bundle_has_one_wav_per_stem demo_env demo_file "htdemucs"
                   "mp3" init_state "song.mp3" "/tmp/tmpk3x9_a7q.mp3"
                   [Byte.x01; Byte.x02] htdemucs_handle 0%nat demo_stems
                   [replicate 41 Byte.x00; replicate 42 Byte.x00;
                    replicate 43 Byte.x00; replicate 44 Byte.x00]
                   _ _ _ _ _ _ _ _ _ _)); try done.
  - by apply (bool_decide_unpack _).
  - repeat constructor.
  - repeat constructor.
Defined.

(** C6.  A request without a stem filter whose encodings all succeed is
    answered with the metadata record: the generated track id, the requested
    model, the current device, and one [StemInfo] per stem of the engine's
    result, in the engine's order, carrying the stem's name and the number
    of bytes of its WAV encoding.  The record holds no audio bytes. *)
Theorem metadata_lists_engine_stems {T} (env : Env T) (file : UploadFile)
    (model : string) (stem : option string) (st : State)
    (file_name path : string) (content : bytes) (sep : Separator)
    (origin : T) (separated : list (string * T)) (datas : list bytes) :
  filename file = Some file_name → file_name ≠ EmptyString →
  read file = inr content →
  mkstemp env (path_suffix env file_name) = inr path →
  tmp_write env path content = None →
  truthy stem = false →
  (get_separator env model st).1 = inr sep →
  run_separation env sep path content = inr (origin, separated) →
  encodes_to env (samplerate sep) separated datas →
  let stems :=
    zip_with (λ item data, mkStemInfo item.1 (length data)) separated datas in
  (separate_audio env file model stem st).1
  = inr (SeparationResult (uuid4 env) stems model
           (if cuda_is_available env then "cuda" else "cpu")) ∧
  name <$> stems = separated.*1 ∧
  length stems = length separated.
Proof.
  intros Hname Hne Hread Htmp Hwrite Hstem Hsep Hrun Henc stems.
  split; [|split].
  - apply (separate_audio_enter env file model stem st file_name content path
             (λ r _, r = _)); try done.
    unfold separate_audio_try.
    apply wp_bind, (wp_get_separator_ok env model sep st); [done|done|].
    intros st2 Hfs Hsaves Hslot.
    apply wp_bind, wp_logger, wp_bind, wp_separate_audio_file; cbn zeta.
    cbn [fs push_log]. rewrite Hfs. unfold scratch_written at 1.
    cbn [fs with_fs]. rewrite lookup_insert_eq, Hrun.
    apply wp_bind, wp_logger. rewrite Hstem.
    apply wp_bind. eapply wp_measure_stems; [exact Henc|].
    by apply wp_ret.
  - assert (name <$> stems = id <$> separated.*1) as ->
      by (by eapply zip_with_names).
    apply list_fmap_id.
  - unfold stems. rewrite length_zip_with.
    apply Forall2_length in Henc. lia.
Qed.

Lemma metadata_lists_engine_stems_witness :
  (separate_audio demo_env demo_file "htdemucs" None init_state).1
  = inr (SeparationResult "1b4e28ba-2fa1-11d2-883f-0016d3cca427"
           [mkStemInfo "vocals" 41; mkStemInfo "drums" 42;
            mkStemInfo "bass" 43; mkStemInfo "other" 44]
           "htdemucs" "cpu").
Proof.
  refine (proj1 (metadata_lists_engine_stems demo_env demo_file "htdemucs"
                   None init_state "song.mp3" "/tmp/tmpk3x9_a7q.mp3"
                   [Byte.x01; Byte.x02] htdemucs_handle 0%nat demo_stems
                   [replicate 41 Byte.x00; replicate 42 Byte.x00;
                    replicate 43 Byte.x00; replicate 44 Byte.x00]
                   _ _ _ _ _ _ _ _ _)); try done.
  repeat constructor.
Defined.

(** ** Remarks on the edges of the statements above *)

(** An empty [stem] is falsy: the request is served as one without a
    filter. *)
Remark empty_stem_is_no_filter :
  separate_audio demo_env demo_file "htdemucs" (Some EmptyString) init_state
  = separate_audio demo_env demo_file "htdemucs" None init_state.
Proof. reflexivity. Qed.

(** C2 (defect of the code).  The scratch file is not deleted on every
    outcome.  When writing the upload raises -- here the disk is full --,
    the [with] block is left before the [try ... finally] that unlinks is
    entered: both handlers answer with a 500, the file that
    [NamedTemporaryFile(delete=False)] created is still there, and
    [os.unlink] was never called. *)
Theorem scratch_file_leaks_when_write_fails :
  let path := "/tmp/tmpk3x9_a7q.mp3" in
  let r1 := separate_audio full_disk_env demo_file "htdemucs" None init_state in
  let r2 :=
    separate_all_stems full_disk_env demo_file "htdemucs" "wav" init_state in
  mkstemp full_disk_env (path_suffix full_disk_env "song.mp3") = inr path ∧
  r1.1 = inl (HTTPException 500
                "Separation failed: [Errno 28] No space left on device") ∧
  is_Some (fs r1.2 !! path) ∧ calls r1.2 = [CallTempFile path] ∧
  r2.1 = inl (HTTPException 500
                "Separation failed: [Errno 28] No space left on device") ∧
  is_Some (fs r2.2 !! path) ∧ calls r2.2 = [CallTempFile path].
Proof. vm_compute. eauto 10. Qed.

(** ** Further properties of the handlers *)

Lemma saved_calls n st :
  calls (saved n st) = replicate n (CallSave "wav") ++ calls st.
Proof.
  unfold saved. induction n as [|n IH]; simpl; [done|by rewrite IH].
Qed.

Lemma saved_fields n st :
  _separator (saved n st) = _separator st ∧ fs (saved n st) = fs st ∧
  logs (saved n st) = logs st.
Proof. unfold saved. induction n as [|n IH]; simpl; [done|exact IH]. Qed.

Lemma filter_calls_cons (f : Call → bool) c l :
  filter f (c :: l) = if f c then c :: filter f l else filter f l.
Proof.
  rewrite filter_cons. destruct (f c); case_decide; naive_solver.
Qed.

Ltac simpl_calls :=
  repeat (progress
            (cbn [calls scratch_removed scratch_written with_fs push_call
                  push_log with_separator is_save_call is_engine_call
                  is_constructor_call is_loaded_call] in *;
             rewrite ?filter_calls_cons in *)).

Lemma filter_saves_replicate n :
  filter is_save_call (replicate n (CallSave "wav"))
  = replicate n (CallSave "wav").
Proof.
  induction n as [|n IH]; [done|].
  cbn [replicate]. by rewrite filter_cons_True, IH.
Qed.

(** X1.  A requested stem that the engine returned, its name within latin-1
    as every string of this model is, is encoded -- it alone -- and
    streamed back as [audio/wav] under the name [<stem>.wav], tagged with the
    track id and the stem name; [get_single_stem] does the same. *)
Theorem single_stem_streamed {T} (env : Env T) (file : UploadFile)
    (model stem : string) (st : State) (file_name path : string)
    (content : bytes) (sep : Separator) (origin tensor : T)
    (separated : list (string * T)) (data : bytes) :
  filename file = Some file_name → file_name ≠ EmptyString →
  read file = inr content →
  mkstemp env (path_suffix env file_name) = inr path →
  tmp_write env path content = None →
  (get_separator env model st).1 = inr sep →
  run_separation env sep path content = inr (origin, separated) →
  stem ≠ EmptyString →
  dict_get separated stem = Some tensor →
  torchaudio_save env tensor (samplerate sep) "wav" = inr data →
  let r := separate_audio env file model (Some stem) st in
  r.1 = inr (StreamingResponse (BytesIO data) "audio/wav"
               [("Content-Disposition",
                 "attachment; filename=" +:+ str1 dquote_char
                   +:+ (stem +:+ ".wav") +:+ str1 dquote_char);
                ("X-Track-Id", uuid4 env);
                ("X-Stem-Name", stem)]) ∧
  filter is_save_call (calls r.2)
  = CallSave "wav" :: filter is_save_call (calls st) ∧
  get_single_stem env stem file model st = r.
Proof.
  intros Hname Hne Hread Htmp Hwrite Hsep Hrun Hstem Hget Hsave r.
  assert (wp (separate_audio env file model (Some stem))
            (λ r st', r = inr (StreamingResponse (BytesIO data) "audio/wav"
                                 [("Content-Disposition",
                                   attachment (stem +:+ ".wav"));
                                  ("X-Track-Id", uuid4 env);
                                  ("X-Stem-Name", stem)]) ∧
                      filter is_save_call (calls st')
                      = CallSave "wav" :: filter is_save_call (calls st)) st)
    as [Hr Hcalls].
  { eapply separate_audio_enter; try done.
    unfold separate_audio_try.
    apply wp_bind, (wp_get_separator_ok env model sep st); [done|done|].
    intros st2 Hfs Hsaves Hslot.
    apply wp_bind, wp_logger, wp_bind, wp_separate_audio_file; cbn zeta.
    cbn [fs push_log]. rewrite Hfs. unfold scratch_written at 1.
    cbn [fs with_fs]. rewrite lookup_insert_eq, Hrun.
    apply wp_bind, wp_logger.
    assert (truthy (Some stem) = true) as -> by (by destruct stem).
    change (default EmptyString (Some stem)) with stem.
    rewrite Hget. apply wp_bind, wp_save; cbn zeta. rewrite Hsave.
    apply wp_ret. split; [done|]. simpl_calls. by rewrite Hsaves. }
  done.
Qed.

Lemma single_stem_streamed_witness :
  (separate_audio demo_env demo_file "htdemucs" (Some "drums") init_state).1
  = inr (StreamingResponse (BytesIO (replicate 42 Byte.x00)) "audio/wav"
           [("Content-Disposition",
             "attachment; filename=" +:+ str1 dquote_char
               +:+ "drums.wav" +:+ str1 dquote_char);
            ("X-Track-Id", "1b4e28ba-2fa1-11d2-883f-0016d3cca427");
            ("X-Stem-Name", "drums")]).
Proof.
  refine (proj1 (single_stem_streamed demo_env demo_file "htdemucs" "drums"
                   init_state "song.mp3" "/tmp/tmpk3x9_a7q.mp3"
                   [Byte.x01; Byte.x02] htdemucs_handle 0%nat 2%nat demo_stems
                   (replicate 42 Byte.x00) _ _ _ _ _ _ _ _ _ _)); done.
Defined.

(** X2.  [startup_event] never raises.  It leaves an occupied slot and the rest
    of the state alone; from an empty slot it ends with the slot holding a
    [htdemucs] handle on the selected device exactly when the constructor
    returned, and otherwise with a warning in the log and the slot still
    empty. *)
Theorem startup_event_never_raises {T} (env : Env T) (st : State) :
  (startup_event env st).1 = inr tt ∧
  match _separator st with
  | Some _ => (startup_event env st).2 = st
  | None =>
      match load_model env "htdemucs" (current_device env) with
      | inr sr =>
          _separator (startup_event env st).2
          = Some (mkSeparator "htdemucs" (current_device env) sr)
      | inl e =>
          _separator (startup_event env st).2 = None ∧
          head (logs (startup_event env st).2)
          = Some (mkLog WARNING ("Failed to pre-load model: " +:+ exn_str e)
                    None)
      end
  end.
Proof.
  unfold startup_event, try_except, bind.
  rewrite get_separator_unfold.
  destruct (_separator st) as [s|] eqn:Hslot; [done|]; simpl.
  by destruct (load_model env "htdemucs" _).
Qed.

Ltac simpl_state :=
  repeat (progress
            (cbn [calls fs logs _separator scratch_removed scratch_written
                  with_fs push_call push_log with_separator is_save_call
                  is_engine_call is_constructor_call is_loaded_call
                  fst snd] in *;
             rewrite ?filter_calls_cons in *)).

(** X3.  When the model cannot be loaded while a request is served, the request
    is answered with a 500 that carries the cause, the engine is never run,
    the slot stays empty and the scratch file is removed. *)
Theorem load_failure_reported {T} (env : Env T) (file : UploadFile)
    (model format : string) (stem : option string) (st : State)
    (file_name path : string) (content : bytes) (e : PyExn) :
  filename file = Some file_name → file_name ≠ EmptyString →
  read file = inr content →
  mkstemp env (path_suffix env file_name) = inr path →
  tmp_write env path content = None →
  _separator st = None →
  load_model env model (current_device env) = inl e →
  let reported := λ r : (Raised + Response) * State,
    r.1 = inl (failed e) ∧
    filter is_engine_call (calls r.2) = filter is_engine_call (calls st) ∧
    _separator r.2 = None ∧
    fs r.2 !! path = None in
  reported (separate_audio env file model stem st) ∧
  reported (separate_all_stems env file model format st).
Proof.
  intros Hname Hne Hread Htmp Hwrite Hempty Hload reported.
  split.
  - apply (separate_audio_enter env file model stem st file_name content path
             (λ r st', reported (r, st'))); try done.
    unfold separate_audio_try. apply wp_bind. unfold wp at 1.
    rewrite get_separator_unfold. simpl_state. rewrite Hempty.
    cbn zeta. rewrite Hload. simpl_state.
    apply wp_bind, wp_logger, wp_raise.
    unfold reported. simpl_state.
    repeat split; try done. apply lookup_delete_eq.
  - apply (separate_all_stems_enter env file model format st file_name content
             path (λ r st', reported (r, st'))); try done.
    unfold separate_all_stems_try. apply wp_bind. unfold wp at 1.
    rewrite get_separator_unfold. simpl_state. rewrite Hempty.
    cbn zeta. rewrite Hload. simpl_state.
    apply wp_bind, wp_logger, wp_raise.
    unfold reported. simpl_state.
    repeat split; try done. apply lookup_delete_eq.
Qed.

Lemma load_failure_reported_witness :
  (separate_audio broken_env demo_file "htdemucs" None init_state).1
  = inl (HTTPException 500 "Separation failed: checkpoint not found") ∧
  (separate_all_stems broken_env demo_file "htdemucs" "wav" init_state).1
  = inl (HTTPException 500 "Separation failed: checkpoint not found").
Proof.
  pose proof (load_failure_reported broken_env demo_file "htdemucs" "wav" None
                init_state "song.mp3" "/tmp/tmpk3x9_a7q.mp3"
                [Byte.x01; Byte.x02] (mkExn "checkpoint not found")) as H.
  destruct H as ([H1 _] & [H2 _]); try done.
Defined.

(** The metadata loop when the encoding of one stem raises: the stems
    before it were encoded, the ones after it are not touched. *)
Lemma wp_measure_stems_fail {T} (env : Env T) pre n t post sr acc datas e Q st :
  encodes_to env sr pre datas →
  torchaudio_save env t sr "wav" = inl e →
  Q (inl (Exception e)) (saved (S (length pre)) st) →
  wp (measure_stems env (pre ++ (n, t) :: post) sr acc) Q st.
Proof.
  intros Henc Hfail. revert acc st.
  induction Henc as [|[n0 t0] data items datas Hsave _ IH]; intros acc st HQ.
  - cbn [app measure_stems]. apply wp_bind, wp_save; cbn zeta.
    by rewrite Hfail.
  - cbn [app measure_stems]. apply wp_bind, wp_save; cbn zeta.
    simpl in Hsave. rewrite Hsave. apply IH.
    change (length ((n0, t0) :: items)) with (S (length items)) in HQ.
    by rewrite saved_succ.
Qed.

Lemma wp_zip_stems_fail {T} (env : Env T) pre n t post sr format acc datas e
    Q st :
  encodes_to env sr pre datas →
  torchaudio_save env t sr "wav" = inl e →
  Q (inl (Exception e)) (saved (S (length pre)) st) →
  wp (zip_stems env (pre ++ (n, t) :: post) sr format acc) Q st.
Proof.
  intros Henc Hfail. revert acc st.
  induction Henc as [|[n0 t0] data items datas Hsave _ IH]; intros acc st HQ.
  - cbn [app zip_stems]. apply wp_bind.
    destruct (String.eqb format "mp3");
      (apply wp_save; cbn zeta; by rewrite Hfail).
  - cbn [app zip_stems]. apply wp_bind. simpl in Hsave.
    change (length ((n0, t0) :: items)) with (S (length items)) in HQ.
    destruct (String.eqb format "mp3");
      (apply wp_save; cbn zeta; rewrite Hsave; apply IH;
       by rewrite saved_succ).
Qed.

(** X4.  When [torchaudio.save] raises on one stem, the metadata request and the
    bundle request end at once with a 500 that carries the cause: the stems
    before the failing one have been encoded, the failing one was tried, and
    no later stem is encoded; nothing partial is returned. *)
Theorem encoding_failure_aborts {T} (env : Env T) (file : UploadFile)
    (model format : string) (stem : option string) (st : State)
    (file_name path : string) (content : bytes) (sep : Separator)
    (origin t : T) (n : string) (pre post : list (string * T))
    (datas : list bytes) (e : PyExn) :
  filename file = Some file_name → file_name ≠ EmptyString →
  read file = inr content →
  mkstemp env (path_suffix env file_name) = inr path →
  tmp_write env path content = None →
  truthy stem = false →
  (get_separator env model st).1 = inr sep →
  run_separation env sep path content = inr (origin, pre ++ (n, t) :: post) →
  encodes_to env (samplerate sep) pre datas →
  torchaudio_save env t (samplerate sep) "wav" = inl e →
  let aborted := λ r : (Raised + Response) * State,
    r.1 = inl (failed e) ∧
    filter is_save_call (calls r.2)
    = replicate (S (length pre)) (CallSave "wav")
      ++ filter is_save_call (calls st) in
  aborted (separate_audio env file model stem st) ∧
  aborted (separate_all_stems env file model format st).
Proof.
  intros Hname Hne Hread Htmp Hwrite Hstem Hsep Hrun Henc Hfail aborted.
  split.
  - apply (separate_audio_enter env file model stem st file_name content path
             (λ r st', aborted (r, st'))); try done.
    unfold separate_audio_try.
    apply wp_bind, (wp_get_separator_ok env model sep st); [done|done|].
    intros st2 Hfs Hsaves Hslot.
    apply wp_bind, wp_logger, wp_bind, wp_separate_audio_file; cbn zeta.
    cbn [fs push_log]. rewrite Hfs. unfold scratch_written at 1.
    cbn [fs with_fs]. rewrite lookup_insert_eq, Hrun.
    apply wp_bind, wp_logger. rewrite Hstem.
    apply wp_bind. eapply wp_measure_stems_fail; [exact Henc|exact Hfail|].
    apply wp_bind, wp_logger, wp_raise.
    unfold aborted. simpl_state. split; [done|].
    rewrite saved_calls, filter_app, filter_saves_replicate.
    simpl_state. by rewrite Hsaves.
  - apply (separate_all_stems_enter env file model format st file_name content
             path (λ r st', aborted (r, st'))); try done.
    unfold separate_all_stems_try.
    apply wp_bind, (wp_get_separator_ok env model sep st); [done|done|].
    intros st2 Hfs Hsaves Hslot.
    apply wp_bind, wp_separate_audio_file; cbn zeta.
    rewrite Hfs. unfold scratch_written at 1.
    cbn [fs with_fs]. rewrite lookup_insert_eq, Hrun.
    apply wp_bind. eapply wp_zip_stems_fail; [exact Henc|exact Hfail|].
    apply wp_bind, wp_logger, wp_raise.
    unfold aborted. simpl_state. split; [done|].
    rewrite saved_calls, filter_app, filter_saves_replicate.
    simpl_state. by rewrite Hsaves.
Qed.

Lemma encoding_failure_aborts_witness :
  (separate_audio flaky_env demo_file "htdemucs" None init_state).1
  = inl (HTTPException 500 "Separation failed: encoder error") ∧
  (separate_all_stems flaky_env demo_file "htdemucs" "wav" init_state).1
  = inl (HTTPException 500 "Separation failed: encoder error").
Proof.
  pose proof (encoding_failure_aborts flaky_env demo_file "htdemucs" "wav"
                None init_state "song.mp3" "/tmp/tmpk3x9_a7q.mp3"
                [Byte.x01; Byte.x02] htdemucs_handle 0%nat 3%nat "bass"
                [("vocals", 1%nat); ("drums", 2%nat)] [("other", 4%nat)]
                [replicate 41 Byte.x00; replicate 42 Byte.x00]
                (mkExn "encoder error")) as H.
  destruct H as ([H1 _] & [H2 _]); try done.
  repeat constructor.
Defined.

Ltac enter_handler Hname Hne :=
  match type of Hname with
  | filename _ = Some ?n =>
      let Ht := fresh "Htruthy" in
      assert (truthy (Some n) = true) as Ht by (by destruct n);
      unfold separate_audio, separate_all_stems;
      rewrite Hname, Ht;
      change (default EmptyString (Some n)) with n; cbn [negb];
      apply wp_try_except, wp_bind
  end.

(** X6.  When reading the upload raises an [Exception] (anything but a
    cancellation), or no temporary file can be created, the request is
    answered with a 500 that carries the cause; no file was created, no
    library beyond that point was called and the cache is as before. *)
Theorem failure_before_scratch_file {T} (env : Env T) (file : UploadFile)
    (model format : string) (stem : option string) (st : State)
    (file_name : string) (e : PyExn) :
  filename file = Some file_name → file_name ≠ EmptyString →
  read file = inl (Raises e) ∨
  (∃ content, read file = inr content ∧
              mkstemp env (path_suffix env file_name) = inl e) →
  let untouched := λ r : (Raised + Response) * State,
    r.1 = inl (failed e) ∧ fs r.2 = fs st ∧ calls r.2 = calls st ∧
    _separator r.2 = _separator st in
  untouched (separate_audio env file model stem st) ∧
  untouched (separate_all_stems env file model format st).
Proof.
  intros Hname Hne Hfail untouched.
  assert (wp (separate_audio env file model stem)
            (λ r st', untouched (r, st')) st
          ∧ wp (separate_all_stems env file model format)
              (λ r st', untouched (r, st')) st) as [H1 H2]; [|done].
  destruct Hfail as [Hread|(content & Hread & Htmp)];
    split; enter_handler Hname Hne; apply wp_await_read; rewrite Hread.
  1,2: by apply wp_bind, wp_logger, wp_raise.
  all: apply wp_bind, wp_logger, wp_bind, wp_write_temp; rewrite Htmp;
    by apply wp_bind, wp_logger, wp_raise.
Qed.

Lemma failure_before_scratch_file_witness :
  (separate_audio no_tmp_env demo_file "htdemucs" None init_state).1
  = inl (HTTPException 500 "Separation failed: [Errno 13] Permission denied") ∧
  fs (separate_audio no_tmp_env demo_file "htdemucs" None init_state).2 = ∅.
Proof.
  pose proof (failure_before_scratch_file no_tmp_env demo_file "htdemucs" "wav"
                None init_state "song.mp3"
                (mkExn "[Errno 13] Permission denied")) as H.
  destruct H as [(H1 & H2 & _) _]; try done.
  right. by exists [Byte.x01; Byte.x02].
Defined.

(** X7.  When writing the upload into the temporary file raises, the request is
    answered with a 500 that carries the cause, and neither handler removes
    the file that [NamedTemporaryFile(delete=False)] created: the [with]
    block is left before the [try ... finally] that unlinks.  The engine is
    not called. *)
Theorem write_failure_leaves_scratch_file {T} (env : Env T) (file : UploadFile)
    (model format : string) (stem : option string) (st : State)
    (file_name path : string) (content : bytes) (e : PyExn) :
  filename file = Some file_name → file_name ≠ EmptyString →
  read file = inr content →
  mkstemp env (path_suffix env file_name) = inr path →
  tmp_write env path content = Some e →
  let left_behind := λ r : (Raised + Response) * State,
    r.1 = inl (failed e) ∧ is_Some (fs r.2 !! path) ∧
    calls r.2 = CallTempFile path :: calls st ∧
    _separator r.2 = _separator st in
  left_behind (separate_audio env file model stem st) ∧
  left_behind (separate_all_stems env file model format st).
Proof.
  intros Hname Hne Hread Htmp Hwrite left_behind.
  assert (wp (separate_audio env file model stem)
            (λ r st', left_behind (r, st')) st
          ∧ wp (separate_all_stems env file model format)
              (λ r st', left_behind (r, st')) st) as [H1 H2]; [|done].
  split; enter_handler Hname Hne; apply wp_await_read; rewrite Hread;
    apply wp_bind, wp_logger, wp_bind, wp_write_temp; rewrite Htmp;
    cbn zeta; rewrite Hwrite;
    apply wp_bind, wp_logger, wp_raise;
    unfold left_behind; simpl_state; rewrite lookup_insert_eq; eauto.
Qed.

Lemma write_failure_leaves_scratch_file_witness :
  (separate_audio full_disk_env demo_file "htdemucs" None init_state).1
  = inl (HTTPException 500
           "Separation failed: [Errno 28] No space left on device") ∧
  is_Some (fs (separate_audio full_disk_env demo_file "htdemucs" None
                 init_state).2 !! "/tmp/tmpk3x9_a7q.mp3").
Proof.
  pose proof (write_failure_leaves_scratch_file full_disk_env demo_file
                "htdemucs" "wav" None init_state "song.mp3"
                "/tmp/tmpk3x9_a7q.mp3" [Byte.x01; Byte.x02]
                (mkExn "[Errno 28] No space left on device")) as H.
  destruct H as [(H1 & H2 & _) _]; done.
Defined.

Lemma get_separator_loaded_at_most_once {T} (env : Env T) model :
  preserves loaded_at_most_once (get_separator env model).
Proof.
  intros st Hinv. rewrite get_separator_unfold.
  destruct (_separator st) as [s|] eqn:Hslot; [done|]. cbn zeta.
  unfold loaded_at_most_once in *. rewrite Hslot in Hinv.
  destruct (load_model env model _) as [e|sr]; simpl_state;
    by rewrite ?Hslot, Hinv.
Qed.

(** X8.  Over the whole life of a process at most one constructor call ever
    succeeds: none while the slot is empty, and afterwards exactly the one
    that built the handle in the slot, for that handle's model and device.
    Once the slot is occupied, no later event replaces the handle or calls
    the constructor again, whatever model the requests name. *)
Theorem model_loaded_at_most_once {T} (history : list (Env T * Event T))
    (st : State) :
  loaded_at_most_once (run history init_state) ∧
  (is_Some (_separator st) →
   _separator (run history st) = _separator st ∧
   filter is_constructor_call (calls (run history st))
   = filter is_constructor_call (calls st)).
Proof.
  split.
  - apply (run_preserves loaded_at_most_once); try done.
    + intros c st' Hc Hinv. unfold loaded_at_most_once in *. simpl_state.
      destruct c as [m d [|]| | | |]; try done.
    + intros env model. apply get_separator_loaded_at_most_once.
  - intros [s Hslot].
    apply (run_preserves
             (λ st', _separator st' = _separator st ∧
                     filter is_constructor_call (calls st')
                     = filter is_constructor_call (calls st))); try done.
    + intros c st' Hc [Hs Hcalls]. simpl_state. by rewrite Hc.
    + intros env model st' Hst'. cbv beta in Hst'.
      destruct Hst' as [Hs Hcalls].
      rewrite get_separator_unfold. rewrite Hslot in Hs. rewrite Hs.
      simpl. by rewrite Hs, Hslot.
Qed.

Lemma model_loaded_at_most_once_witness :
  _separator
    (run [(demo_env, PostSeparate demo_file "mdx_extra" None);
          (broken_env, Startup)] warm_state)
  = Some htdemucs_handle.
Proof.
  apply (proj2 (model_loaded_at_most_once
                  [(demo_env, PostSeparate demo_file "mdx_extra" None);
                   (broken_env, Startup)] warm_state)).
  by eexists.
Defined.

(** *** Two runs that differ in the model they name *)

Lemma related_ret {A} P (f : A → A) a1 a2 :
  f a1 = a2 → related P f (ret a1) (ret a2).
Proof. intros <- st _. done. Qed.

Lemma related_raise {A} P (f : A → A) r : related P f (raise r) (raise r).
Proof. by intros st _. Qed.

Lemma related_bind {A B} (P P' : State → Prop) (f : B → B) (m : M A)
    (k1 k2 : A → M B) :
  (∀ st, P st → P' (m st).2) →
  (∀ a, related P' f (k1 a) (k2 a)) →
  related P f (bind m k1) (bind m k2).
Proof.
  intros Hm Hk st HP. specialize (Hm st HP). unfold bind.
  destruct (m st) as [[e|a] st']; simpl in *; [done|]. by apply Hk.
Qed.

Lemma related_try_finally {A} P (f : A → A) (b1 b2 : M A) fin :
  related P f b1 b2 → related P f (try_finally b1 fin) (try_finally b2 fin).
Proof.
  intros Hb st HP. unfold try_finally. rewrite (Hb st HP).
  destruct (b1 st) as [r st1]; simpl.
  by destruct (fin st1) as [[e|u] st2].
Qed.

Lemma related_try_except {A} P (f : A → A) (b1 b2 : M A) handler :
  (∀ e st, ∃ r, (handler e st).1 = inl r) →
  related P f b1 b2 →
  related P f (try_except b1 handler) (try_except b2 handler).
Proof.
  intros Hh Hb st HP. unfold try_except. rewrite (Hb st HP).
  destruct (b1 st) as [[e|a] st1]; simpl; [|done].
  destruct (Hh e st1) as [r Hr].
  destruct (handler e st1) as [r' st2]; simpl in *. by subst r'.
Qed.

Lemma related_id {A} P (m1 m2 : M A) st :
  related P id m1 m2 → P st → m2 st = m1 st.
Proof.
  intros Hrel HP. rewrite (Hrel st HP).
  by destruct (m1 st) as [[e|a] st'].
Qed.

Lemma except_always_raises e st :
  (∃ r, (separate_audio_except e st).1 = inl r) ∧
  (∃ r, (separate_all_stems_except e st).1 = inl r).
Proof. split; destruct e; by eexists. Qed.

Lemma related_bind_both {A B} (P : State → Prop) (f : B → B) (ma mb : M A)
    (k1 k2 : A → M B) :
  (∀ st, P st → ∃ a, ma st = (inr a, st) ∧ mb st = (inr a, st)) →
  (∀ a, related P f (k1 a) (k2 a)) →
  related P f (bind ma k1) (bind mb k2).
Proof.
  intros Hm Hk st HP. destruct (Hm st HP) as (a & Ha & Hb).
  unfold bind. rewrite Ha, Hb. by apply Hk.
Qed.

Lemma get_separator_warm {T} (env : Env T) s model1 model2 st :
  _separator st = Some s →
  ∃ a, get_separator env model1 st = (inr a, st) ∧
       get_separator env model2 st = (inr a, st).
Proof. intros Hslot. exists s. by rewrite !get_separator_unfold, Hslot. Qed.

Lemma separate_audio_try_related {T} (env : Env T) s model1 model2 stem
    track_id tmp_path :
  related (λ st, _separator st = Some s) (relabel model2)
    (separate_audio_try env model1 stem track_id tmp_path)
    (separate_audio_try env model2 stem track_id tmp_path).
Proof.
  unfold separate_audio_try.
  apply related_bind_both; [intros st; apply get_separator_warm|].
  intros sep.
  apply (related_bind _ (λ _, True)); [done|]. intros _.
  apply (related_bind _ (λ _, True)); [done|]. intros [origin separated].
  apply (related_bind _ (λ _, True)); [done|]. intros _.
  destruct (truthy stem).
  - destruct (dict_get separated _); [|apply related_raise].
    apply (related_bind _ (λ _, True)); [done|]. intros buffer.
    by apply related_ret.
  - apply (related_bind _ (λ _, True)); [done|]. intros infos.
    by apply related_ret.
Qed.

Lemma separate_all_stems_try_related {T} (env : Env T) s model1 model2 format
    track_id tmp_path :
  related (λ st, _separator st = Some s) id
    (separate_all_stems_try env model1 format track_id tmp_path)
    (separate_all_stems_try env model2 format track_id tmp_path).
Proof.
  unfold separate_all_stems_try.
  apply related_bind_both; [intros st; apply get_separator_warm|].
  intros sep.
  apply (related_bind _ (λ _, True)); [done|]. intros [origin separated].
  apply (related_bind _ (λ _, True)); [done|]. intros zf.
  by apply related_ret.
Qed.

(** X9.  Once the slot is occupied, the model a request names has no effect on
    what is done: the bundle handler behaves identically for any two model
    names, and [separate_audio] ends in the same state with the same
    outcome, the metadata record differing only in the [model] field, which
    echoes the name that was requested and not the model that ran. *)
Theorem warm_cache_ignores_model {T} (env : Env T) (file : UploadFile)
    (model1 model2 format : string) (stem : option string) (st : State) :
  is_Some (_separator st) →
  separate_all_stems env file model2 format st
  = separate_all_stems env file model1 format st ∧
  separate_audio env file model2 stem st
  = (sum_map id (relabel model2) (separate_audio env file model1 stem st).1,
     (separate_audio env file model1 stem st).2).
Proof.
  intros [s Hslot].
  set (P := λ st' : State, _separator st' = Some s).
  assert (∀ r st', P st' → P (push_log r st')) as P_log by done.
  assert (∀ c st', is_constructor_call c = false → P st' → P (push_call c st'))
    as P_call by done.
  assert (∀ f st', P st' → P (with_fs f st')) as P_fs by done.
  split.
  - apply (related_id P); [|done].
    unfold separate_all_stems.
    destruct (negb _); [apply related_raise|].
    apply related_try_except; [intros e st'; apply except_always_raises|].
    apply (related_bind _ P); [by apply preserves_await_read|].
    intros content.
    apply (related_bind _ P); [by apply logger_preserves|]. intros _.
    apply (related_bind _ P); [by apply write_temp_preserves|]. intros tmp.
    apply related_try_finally, separate_all_stems_try_related.
  - cut (related P (relabel model2) (separate_audio env file model1 stem)
           (separate_audio env file model2 stem)); [by intros H; apply H|].
    unfold separate_audio.
    destruct (negb _); [apply related_raise|].
    apply related_try_except; [intros e st'; apply except_always_raises|].
    apply (related_bind _ P); [by apply preserves_await_read|].
    intros content.
    apply (related_bind _ P); [by apply logger_preserves|]. intros _.
    apply (related_bind _ P); [by apply write_temp_preserves|]. intros tmp.
    apply related_try_finally, separate_audio_try_related.
Qed.

Lemma warm_cache_ignores_model_witness :
  separate_all_stems demo_env demo_file "mdx_extra" "wav" warm_state
  = separate_all_stems demo_env demo_file "htdemucs" "wav" warm_state.
Proof.
  apply (warm_cache_ignores_model demo_env demo_file "htdemucs" "mdx_extra"
           "wav" None warm_state).
  by eexists.
Defined.

(** *** What the handlers can answer *)

Lemma always_bind {A B} (R : Raised + B → Prop) (m : M A) (k : A → M B) :
  raises_exn m → (∀ e, R (inl (Exception e))) →
  (∀ a, always R (k a)) → always R (bind m k).
Proof.
  intros Hm Hexn Hk st. unfold bind. specialize (Hm st).
  destruct (m st) as [[r|a] st']; simpl in *; [|apply Hk].
  destruct (Hm r eq_refl) as [e ->]. apply Hexn.
Qed.

Lemma raises_exn_bind {A B} (m : M A) (k : A → M B) :
  raises_exn m → (∀ a, raises_exn (k a)) → raises_exn (bind m k).
Proof.
  intros Hm Hk st r. unfold bind. specialize (Hm st).
  destruct (m st) as [[r'|a] st']; simpl in *; [|apply Hk].
  intros [= <-]. by apply Hm.
Qed.

Lemma raises_exn_lift {A} (x : PyExn + A) : raises_exn (lift_exn x).
Proof. intros st r. destruct x; simpl; [intros [= <-]; eauto|done]. Qed.

Lemma raises_exn_total {A} (m : M A) :
  (∀ st, ∃ a, (m st).1 = inr a) → raises_exn m.
Proof. intros Hm st r Hr. destruct (Hm st) as [a Ha]. congruence. Qed.

Lemma raises_exn_logger lvl msg exc : raises_exn (logger lvl msg exc).
Proof. apply raises_exn_total. by eexists. Qed.

Lemma raises_exn_record_call c : raises_exn (record_call c).
Proof. apply raises_exn_total. by eexists. Qed.

Lemma raises_exn_get_separator {T} (env : Env T) model :
  raises_exn (get_separator env model).
Proof.
  intros st r. rewrite get_separator_unfold.
  destruct (_separator st); [done|]; simpl.
  destruct (load_model env model _); simpl; [intros [= <-]; eauto|done].
Qed.

Lemma raises_exn_separate_audio_file {T} (env : Env T) sep path :
  raises_exn (separate_audio_file env sep path).
Proof.
  apply raises_exn_bind; [apply raises_exn_record_call|].
  intros _ st r. destruct (fs st !! path); [apply raises_exn_lift|].
  simpl. intros [= <-]. eauto.
Qed.

Lemma raises_exn_save {T} (env : Env T) tensor sr fmt :
  raises_exn (save env tensor sr fmt).
Proof.
  apply raises_exn_bind; [apply raises_exn_record_call|].
  intros _. apply raises_exn_lift.
Qed.

Lemma raises_exn_measure_stems {T} (env : Env T) items sr acc :
  raises_exn (measure_stems env items sr acc).
Proof.
  revert acc. induction items as [|[n t] rest IH]; intros acc; simpl.
  - by apply raises_exn_total; eexists.
  - apply raises_exn_bind; [apply raises_exn_save|]. intros buf. apply IH.
Qed.

Lemma raises_exn_zip_stems {T} (env : Env T) items sr format acc :
  raises_exn (zip_stems env items sr format acc).
Proof.
  revert acc. induction items as [|[n t] rest IH]; intros acc; simpl.
  - by apply raises_exn_total; eexists.
  - apply raises_exn_bind; [|intros buf; apply IH].
    destruct (String.eqb format "mp3"); apply raises_exn_save.
Qed.

Lemma raises_exn_write_temp {T} (env : Env T) suffix content :
  raises_exn (write_temp env suffix content).
Proof.
  intros st r Hr.
  apply (wp_write_temp env suffix content
           (λ r' _, r' = inl r → ∃ e, r = Exception e) st); [|exact Hr].
  destruct (mkstemp env suffix); [intros [= <-]; eauto|].
  cbn zeta. destruct (tmp_write env _ content); [intros [= <-]; eauto|done].
Qed.

Lemma raises_exn_os_unlink path : raises_exn (os_unlink path).
Proof.
  intros st r Hr.
  apply (wp_os_unlink path (λ r' _, r' = inl r → ∃ e, r = Exception e) st);
    [|exact Hr].
  cbn zeta. destruct (fs st !! path); [done|intros [= <-]; eauto].
Qed.

Lemma separate_audio_try_outcome {T} (env : Env T) model stem track_id path :
  always
    (block_outcome False (λ d, String.prefix "Stem '" d = true)
       (λ resp, if truthy stem then is_stream "audio/wav" resp
                else is_metadata resp))
    (separate_audio_try env model stem track_id path).
Proof.
  unfold separate_audio_try.
  apply always_bind; [apply raises_exn_get_separator|done|]. intros sep.
  apply always_bind; [apply raises_exn_logger|done|]. intros _.
  apply always_bind; [apply raises_exn_separate_audio_file|done|].
  intros [origin separated].
  apply always_bind; [apply raises_exn_logger|done|]. intros _.
  destruct (truthy stem).
  - destruct (dict_get separated _).
    + apply always_bind; [apply raises_exn_save|done|].
      intros buffer st. simpl. by eexists _, _.
    + intros st. simpl. split; [done|]. apply prefix_app.
  - apply always_bind; [apply raises_exn_measure_stems|done|].
    intros infos st. simpl. by eexists _, _, _, _.
Qed.

Lemma separate_all_stems_try_outcome {T} (env : Env T) model format track_id
    path :
  always (block_outcome False (λ _, False) (is_stream "application/zip"))
    (separate_all_stems_try env model format track_id path).
Proof.
  unfold separate_all_stems_try.
  apply always_bind; [apply raises_exn_get_separator|done|]. intros sep.
  apply always_bind; [apply raises_exn_separate_audio_file|done|].
  intros [origin separated].
  apply always_bind; [apply raises_exn_zip_stems|done|].
  intros zf st. simpl. by eexists _, _.
Qed.

Lemma always_try_finally {A} (R : Raised + A → Prop) (body : M A) fin :
  always R body → raises_exn fin → (∀ e, R (inl (Exception e))) →
  always R (try_finally body fin).
Proof.
  intros Hb Hf Hexn st. unfold try_finally. specialize (Hb st).
  destruct (body st) as [r st1]; simpl in *. specialize (Hf st1).
  destruct (fin st1) as [[e|u] st2]; simpl in *; [|done].
  destruct (Hf e eq_refl) as [x ->]. apply Hexn.
Qed.

Lemma block_outcome_cancelled cancelled bad ok r :
  block_outcome False bad ok r → block_outcome cancelled bad ok r.
Proof. by destruct r as [[c d|x|]|resp]. Qed.

(** The part of a handler inside its outer [try]: a [CancelledError] can
    only come from the read. *)
Lemma guarded_request_outcome {T} (env : Env T) (file : UploadFile) msg
    file_name bad ok (block : string → M Response) :
  (∀ path, always (block_outcome False bad ok) (block path)) →
  always (block_outcome (read file = inl Cancelled) bad ok)
    (do content <- await_read file;
     logger_info (msg content);;
     do tmp_path <- write_temp env (path_suffix env file_name) content;
     try_finally (block tmp_path) (os_unlink tmp_path)).
Proof.
  intros Hblock st. unfold bind at 1, await_read.
  destruct (read file) as [[e|]|content]; simpl; [done|done|].
  apply block_outcome_cancelled.
  revert st. fold (always (block_outcome False bad ok)).
  apply always_bind; [apply raises_exn_logger|done|]. intros _.
  apply always_bind; [apply raises_exn_write_temp|done|]. intros tmp_path.
  apply always_try_finally; [apply Hblock|apply raises_exn_os_unlink|done].
Qed.


(** Running a block that starts with [get_separator] from the state that
    a successful [get_separator] has left is running it from the state
    before. *)
Lemma bind_get_separator_again {T A} (env : Env T) model (k : Separator → M A)
    st s :
  (get_separator env model st).1 = inr s →
  bind (get_separator env model) k st
  = bind (get_separator env model) k (get_separator env model st).2.
Proof.
  unfold bind. rewrite !get_separator_unfold.
  destruct (_separator st) as [s0|] eqn:Hslot; simpl.
  - by rewrite Hslot.
  - by destruct (load_model env model _).
Qed.

(** X11.  The first request that reaches the engine loads the model it names, on
    the selected device, and the handle stays in the slot when the request
    ends -- also when the separation or the encoding then fails. *)
Theorem first_request_loads_model {T} (env : Env T) (file : UploadFile)
    (model format : string) (stem : option string) (st : State)
    (file_name path : string) (content : bytes) (sr : Z) :
  filename file = Some file_name → file_name ≠ EmptyString →
  read file = inr content →
  mkstemp env (path_suffix env file_name) = inr path →
  tmp_write env path content = None →
  _separator st = None →
  load_model env model (current_device env) = inr sr →
  let s := mkSeparator model (current_device env) sr in
  _separator (separate_audio env file model stem st).2 = Some s ∧
  _separator (separate_all_stems env file model format st).2 = Some s.
Proof.
  intros Hname Hne Hread Htmp Hwrite Hempty Hload s.
  set (P := λ st' : State, _separator st' = Some s).
  assert (∀ r st', P st' → P (push_log r st')) as P_log by done.
  assert (∀ c st', is_constructor_call c = false → P st' → P (push_call c st'))
    as P_call by done.
  assert (preserves P (get_separator env model)) as P_get.
  { intros st' Hs. rewrite get_separator_unfold. by rewrite Hs. }
  assert (∀ e, preserves P (separate_audio_except e)
               ∧ preserves P (separate_all_stems_except e)) as Hexc
    by (intros e; by apply except_preserves).
  assert (∀ st1, _separator st1 = None →
            (get_separator env model st1).1 = inr s
            ∧ P (get_separator env model st1).2) as Hfirst.
  { intros st1 Hs. rewrite get_separator_unfold, Hs. cbn zeta.
    by rewrite Hload. }
  split.
  - apply (separate_audio_enter env file model stem st file_name content path
             (λ _ st', P st')); try done.
    match goal with |- wp _ _ ?s1 =>
      destruct (Hfirst s1 Hempty) as [Hs HP];
      pose proof (separate_audio_try_preserves env P P_log P_call model P_get
                    stem (uuid4 env) path _ HP) as Hend;
      unfold separate_audio_try in Hend |- *;
      rewrite <- (bind_get_separator_again env model _ s1 s Hs) in Hend
    end.
    unfold wp at 1.
    destruct (bind (get_separator env model) _ _) as [[e|a] st2];
      simpl in Hend |- *; [|done].
    apply wp_preserves; [apply Hexc|done].
  - apply (separate_all_stems_enter env file model format st file_name content
             path (λ _ st', P st')); try done.
    match goal with |- wp _ _ ?s1 =>
      destruct (Hfirst s1 Hempty) as [Hs HP];
      pose proof (separate_all_stems_try_preserves env P P_call model P_get
                    format (uuid4 env) path _ HP) as Hend;
      unfold separate_all_stems_try in Hend |- *;
      rewrite <- (bind_get_separator_again env model _ s1 s Hs) in Hend
    end.
    unfold wp at 1.
    destruct (bind (get_separator env model) _ _) as [[e|a] st2];
      simpl in Hend |- *; [|done].
    apply wp_preserves; [apply Hexc|done].
Qed.

Lemma first_request_loads_model_witness :
  _separator (separate_audio oom_env demo_file "htdemucs" None init_state).2
  = Some htdemucs_handle ∧
  _separator (separate_all_stems demo_env demo_file "htdemucs" "wav"
                init_state).2
  = Some htdemucs_handle.
Proof.
  split.
  - apply (first_request_loads_model oom_env demo_file "htdemucs" "wav" None
             init_state "song.mp3" "/tmp/tmpk3x9_a7q.mp3"
             [Byte.x01; Byte.x02] 44100); done.
  - apply (first_request_loads_model demo_env demo_file "htdemucs" "wav" None
             init_state "song.mp3" "/tmp/tmpk3x9_a7q.mp3"
             [Byte.x01; Byte.x02] 44100); done.
Defined.

(** X12.  Every 500 that either handler answers has been logged first: the last
    log record is the ERROR record of that failure, with the same text and
    the caught exception attached.  (A 400 is raised without such a
    record.) *)
Theorem every_500_is_logged {T} (env : Env T) (file : UploadFile)
    (model format : string) (stem : option string) (st : State) :
  logged_500 (separate_audio env file model stem st) ∧
  logged_500 (separate_all_stems env file model format st).
Proof.
  split; intros detail.
  - unfold separate_audio.
    destruct (negb _); [by intros [=]|].
    unfold try_except.
    pose proof (guarded_request_outcome env file
                  (λ content, "Processing file: "
                     +:+ default EmptyString (filename file) +:+ " ("
                     +:+ pretty (length content) +:+ " bytes)")
                  (default EmptyString (filename file)) _ _
                  (separate_audio_try env model stem (uuid4 env))
                  (separate_audio_try_outcome env model stem (uuid4 env)) st)
      as Hbody.
    cbv beta in Hbody.
    destruct (bind (await_read file) _ st) as [[[c d|x|]|resp] st1];
      simpl in Hbody |- *; [|intros [= <-]; by exists x|done|done].
    destruct Hbody as [-> _]. by intros [=].
  - unfold separate_all_stems.
    destruct (negb _); [by intros [=]|].
    unfold try_except.
    pose proof (guarded_request_outcome env file
                  (λ _, "Processing file for all stems: "
                     +:+ default EmptyString (filename file))
                  (default EmptyString (filename file)) _ _
                  (separate_all_stems_try env model format (uuid4 env))
                  (separate_all_stems_try_outcome env model format (uuid4 env))
                  st) as Hbody.
    cbv beta in Hbody.
    destruct (bind (await_read file) _ st) as [[[c d|x|]|resp] st1];
      simpl in Hbody |- *;
      [by destruct Hbody|intros [= <-]; by exists x|done|done].
Qed.

Lemma every_500_is_logged_witness :
  ∃ e, "Separation failed: CUDA out of memory"
       = "Separation failed: " +:+ exn_str e ∧
       head (logs (separate_audio oom_env demo_file "htdemucs" None
                     init_state).2)
       = Some (mkLog ERROR "Separation failed: CUDA out of memory"
                 (Some (Exception e))).
Proof.
  apply (proj1 (every_500_is_logged oom_env demo_file "htdemucs" "wav" None
                  init_state)).
  reflexivity.
Defined.

(** X13.  A request that is cancelled while the handler waits at
    [await file.read()] is not answered by the handler at all: the
    [CancelledError] passes the [except] clauses of both handlers, nothing
    is logged, no file is created and no library is called. *)
Theorem cancelled_read_escapes {T} (env : Env T) (file : UploadFile)
    (model format : string) (stem : option string) (st : State)
    (file_name : string) :
  filename file = Some file_name → file_name ≠ EmptyString →
  read file = inl Cancelled →
  separate_audio env file model stem st = (inl CancelledError, st) ∧
  separate_all_stems env file model format st = (inl CancelledError, st).
Proof.
  intros Hname Hne Hread.
  assert (truthy (Some file_name) = true) as Htruthy
    by (by destruct file_name).
  unfold separate_audio, separate_all_stems, try_except, bind, await_read.
  by rewrite Hname, Htruthy, Hread.
Qed.

Lemma cancelled_read_escapes_witness :
  separate_audio demo_env cancelled_file "htdemucs" None init_state
  = (inl CancelledError, init_state) ∧
  separate_all_stems demo_env cancelled_file "htdemucs" "wav" init_state
  = (inl CancelledError, init_state).
Proof.
  apply (cancelled_read_escapes demo_env cancelled_file "htdemucs" "wav" None
           init_state "song.mp3"); done.
Defined.

(** A stem name that holds a null character is filed under the part before
    it, so two such stems can end under one entry name. *)
Remark zipinfo_filename_cuts_at_nul :
  zipinfo_filename ("vo" +:+ str1 nul_char +:+ "cals" +:+ ".wav") = "vo" ∧
  zipinfo_filename ("a" +:+ str1 nul_char +:+ "x" +:+ ".wav")
  = zipinfo_filename ("a" +:+ str1 nul_char +:+ "y" +:+ ".wav").
Proof. split; reflexivity. Qed.
